(** * Retro Notes: the notes API client and the UI state orchestrator

    A shallow embedding of [src/notes_frontend/src/App.js] (the [App]
    component and the notes API client that follows it in the same file)
    and the properties of its specification that were checked against it.

    Conventions of the embedding.
    - A JavaScript string is a [string]; each character stands for one
      UTF-16 code unit below 256, so [String.length] is [.length].
    - A JavaScript value that can come out of [res.json()] or [res.text()]
      is a [JsValue]; [JUndefined] is what reading a missing property gives.
    - A call that can throw returns a [Completion]; an awaited promise is
      the same type, [Returned] for a resolved and [Threw] for a rejected one.
    - A React handler is a function from the state of the render it closed
      over to the state after all its [set...] calls, paired with the list
      of Adapter calls it made. *)

From Stdlib Require Import String Ascii List ZArith Bool Lia.
From Stdlib Require Import Permutation Sorted DecimalString.
Import ListNotations.

Local Open Scope list_scope.
Local Open Scope string_scope.

Set Warnings "-register-all".

(* ================================================================== *)
(** * Completions: values returned or thrown *)

(** What a [catch (e)] clause can observe of [e]: whether it is an
    [Error] instance, and then its [message]. *)
Inductive Thrown : Type :=
| ErrorObj (message : string)
| NonError.

Inductive Completion (A : Type) : Type :=
| Returned (a : A)
| Threw (e : Thrown).

Arguments Returned {A} a.
Arguments Threw {A} e.

Definition bind {A B : Type} (c : Completion A) (k : A -> Completion B)
  : Completion B :=
  match c with
  | Returned a => k a
  | Threw e => Threw e
  end.

Notation "x <- c ;; k" := (bind c (fun x => k))
  (at level 61, c at next level, right associativity).

Fixpoint mapM {A B : Type} (f : A -> Completion B) (l : list A)
  : Completion (list B) :=
  match l with
  | [] => Returned []
  | x :: rest => y <- f x ;; ys <- mapM f rest ;; Returned (y :: ys)
  end.

(* ================================================================== *)
(** * JavaScript values *)

(** A Number is used by this program only through [String(n)] and through
    its truthiness; the record carries these two observations of it. *)
Record JsNumber : Type := {
  num_repr : string;      (* String(n) *)
  num_nonzero : bool      (* n is neither 0 nor NaN *)
}.

(** The values of JSON, and undefined.  [JObj] lists the own properties
    of an object; a key is read at its first occurrence. *)
Inductive JsValue : Type :=
| JUndefined
| JNull
| JBool (b : bool)
| JNum (n : JsNumber)
| JStr (s : string)
| JArr (items : list JsValue)
| JObj (props : list (string * JsValue)).

(** ToBoolean. *)
Definition truthy (v : JsValue) : bool :=
  match v with
  | JUndefined | JNull => false
  | JBool b => b
  | JNum n => num_nonzero n
  | JStr s => negb (s =? "")
  | JArr _ | JObj _ => true
  end.

(** [typeof v === "object"]: true of null, arrays and objects. *)
Definition typeof_object (v : JsValue) : bool :=
  match v with
  | JNull | JArr _ | JObj _ => true
  | _ => false
  end.

Definition typeof_string (v : JsValue) : bool :=
  match v with
  | JStr _ => true
  | _ => false
  end.

Fixpoint lookup (k : string) (props : list (string * JsValue))
  : option JsValue :=
  match props with
  | [] => None
  | (k', v) :: rest => if k' =? k then Some v else lookup k rest
  end.

(** ["k" in v], for an object or array [v] and the property names this
    program tests (none of them is inherited or an array index). *)
Definition has_prop (v : JsValue) (k : string) : bool :=
  match v with
  | JObj props => match lookup k props with Some _ => true | None => false end
  | _ => false
  end.

(** [v.k] (and [v?.k]) for the property names this program reads: an own
    property of an object, [undefined] on everything else. *)
Definition prop (v : JsValue) (k : string) : JsValue :=
  match v with
  | JObj props => match lookup k props with Some x => x | None => JUndefined end
  | _ => JUndefined
  end.

(** [a ?? b]. *)
Definition nullish (a b : JsValue) : JsValue :=
  match a with
  | JUndefined | JNull => b
  | _ => a
  end.

Infix "??" := nullish (at level 60, right associativity).

(** [a || b]. *)
Definition js_or (a b : JsValue) : JsValue := if truthy a then a else b.

(** [a && b]. *)
Definition js_and (a b : JsValue) : JsValue := if truthy a then b else a.

Definition isArray (v : JsValue) : bool :=
  match v with
  | JArr _ => true
  | _ => false
  end.

(** The message of the TypeError that ToPrimitive throws (the wording is
    the engine's own; no property below depends on it). *)
Definition TypeError_message : string :=
  "Cannot convert object to primitive value".

(** [String(v)].  An array is joined with commas, its null and undefined
    elements printing as the empty string.  An object prints as
    "[object Object]" through the inherited [toString]; when an own
    property shadows [toString] (its value, coming from JSON, is not
    callable) the inherited [valueOf] returns the object itself and
    ToPrimitive throws a TypeError. *)
Fixpoint js_String (v : JsValue) : Completion string :=
  match v with
  | JUndefined => Returned "undefined"
  | JNull => Returned "null"
  | JBool true => Returned "true"
  | JBool false => Returned "false"
  | JNum n => Returned (num_repr n)
  | JStr s => Returned s
  | JArr items =>
      (fix join (l : list JsValue) : Completion string :=
         match l with
         | [] => Returned ""
         | x :: rest =>
             sx <- match x with
                   | JUndefined | JNull => Returned ""
                   | _ => js_String x
                   end ;;
             match rest with
             | [] => Returned sx
             | _ :: _ => sr <- join rest ;; Returned (sx ++ "," ++ sr)
             end
         end) items
  | JObj props =>
      match lookup "toString" props with
      | Some _ => Threw (ErrorObj TypeError_message)
      | None => Returned "[object Object]"
      end
  end.

(* ================================================================== *)
(** * String.prototype.trim *)

(** White space and line terminators among the code units below 256:
    TAB, LF, VT, FF, CR, SP and NBSP. *)
Definition is_space (c : ascii) : bool :=
  let n := nat_of_ascii c in
  ((9 <=? n) && (n <=? 13) || (n =? 32) || (n =? 160))%nat.

Fixpoint trimStart (s : string) : string :=
  match s with
  | EmptyString => EmptyString
  | String c rest => if is_space c then trimStart rest else s
  end.

Fixpoint trimEnd (s : string) : string :=
  match s with
  | EmptyString => EmptyString
  | String c rest =>
      match trimEnd rest with
      | EmptyString => if is_space c then EmptyString else String c EmptyString
      | t => String c t
      end
  end.

Definition trim (s : string) : string := trimEnd (trimStart s).

(* ================================================================== *)
(** * Notes and their normalization (the API client) *)

(** The [Note] typedef: [updatedAt] and [createdAt] are optional keys. *)
Record Note : Type := {
  id : string;
  title : string;
  content : string;
  updatedAt : option string;
  createdAt : option string
}.

Definition empty_note : Note :=
  {| id := ""; title := ""; content := ""; updatedAt := None; createdAt := None |}.

(** [...(v ? { key: String(v) } : {})]: the key is set when [v] is truthy. *)
Definition spread_if_truthy (v : JsValue) : Completion (option string) :=
  if truthy v then s <- js_String v ;; Returned (Some s) else Returned None.

Definition toUiNote (raw : JsValue) : Completion Note :=
  if negb (truthy raw) || negb (typeof_object raw) then Returned empty_note
  else
    id <- js_String (prop raw "id" ?? prop raw "_id" ?? prop raw "noteId" ?? JStr "") ;;
    title0 <- js_String (prop raw "title" ?? prop raw "name" ?? JStr "") ;;
    let title := trim title0 in
    content <- js_String (prop raw "content" ?? prop raw "body" ?? prop raw "text" ?? JStr "") ;;
    let updatedAt :=
      prop raw "updatedAt" ?? prop raw "updated_at" ?? prop raw "modifiedAt"
        ?? prop raw "modified_at" in
    let createdAt := prop raw "createdAt" ?? prop raw "created_at" in
    u <- spread_if_truthy updatedAt ;;
    c <- spread_if_truthy createdAt ;;
    Returned {| id := id; title := title; content := content;
                updatedAt := u; createdAt := c |}.

(** A note as the JavaScript object it is: the three string keys, and the
    timestamp keys that are set. *)
Definition note_value (n : Note) : JsValue :=
  JObj ([("id", JStr (id n)); ("title", JStr (title n)); ("content", JStr (content n))]
        ++ match updatedAt n with Some u => [("updatedAt", JStr u)] | None => [] end
        ++ match createdAt n with Some c => [("createdAt", JStr c)] | None => [] end)%list.

(* ------------------------------------------------------------------ *)
(** ** Requests *)

(** What [request] observes of the [Response] that [fetch] resolved to:
    the status, the [content-type] header ([None] when [headers.get] gives
    null), the body as [res.text()] resolves it, and what [res.json()]
    settles to (it rejects with a SyntaxError when the body does not
    parse). *)
Record Response : Type := {
  res_status : N;
  res_content_type : option string;
  res_text : string;
  res_json : Completion JsValue
}.

(** [res.ok]: the status is in the range 200-299. *)
Definition ok (res : Response) : bool :=
  ((200 <=? res_status res) && (res_status res <=? 299))%N.

(** [hay.includes(needle)]. *)
Fixpoint includes (hay needle : string) : bool :=
  prefix needle hay
  || match hay with
     | EmptyString => false
     | String _ rest => includes rest needle
     end.

Definition parseJsonOrText (res : Response) : Completion JsValue :=
  let contentType := match res_content_type res with Some c => c | None => "" end in
  if includes contentType "application/json" then res_json res
  else Returned (JStr (res_text res)).

Definition unwrapData (payload : JsValue) : JsValue :=
  if truthy payload && typeof_object payload && has_prop payload "data"
  then prop payload "data"
  else payload.

(** [String(n)] of a status code. *)
Definition status_text (n : N) : string := NilZero.string_of_uint (N.to_uint n).

Definition not_configured : string :=
  "Backend base URL is not configured. Set REACT_APP_API_BASE or REACT_APP_BACKEND_URL.".

(** [throw new Error(message)]: the constructor stringifies its argument. *)
Definition throw_new_Error {A : Type} (message : JsValue) : Completion A :=
  m <- js_String message ;; Threw (ErrorObj m).

(** [request(path, init)], given the module constant [API_BASE] and what
    the awaited [fetch] settled to. *)
Definition request (API_BASE : string) (fetched : Completion Response)
  : Completion JsValue :=
  if API_BASE =? "" then Threw (ErrorObj not_configured)
  else
    res <- fetched ;;
    payload <- parseJsonOrText res ;;
    if negb (ok res) then
      let message :=
        if typeof_string payload then payload
        else js_or (js_and payload (js_or (prop payload "message") (prop payload "error")))
                   (JStr ("Request failed (" ++ status_text (res_status res) ++ ")")) in
      throw_new_Error message
    else Returned payload.

Definition elements (v : JsValue) : list JsValue :=
  match v with
  | JArr items => items
  | _ => []
  end.

(** The part of [listNotes] after the awaited request. *)
Definition listNotes_of_payload (payload : JsValue) : Completion (list Note) :=
  let unwrapped := unwrapData payload in
  let items :=
    if isArray unwrapped then elements unwrapped
    else if isArray (prop unwrapped "items") then elements (prop unwrapped "items")
    else if isArray (prop unwrapped "notes") then elements (prop unwrapped "notes")
    else [] in
  notes <- mapM toUiNote items ;;
  Returned (filter (fun n => negb (id n =? "")) notes).

Definition listNotes (API_BASE : string) (fetched : Completion Response)
  : Completion (list Note) :=
  payload <- request API_BASE fetched ;; listNotes_of_payload payload.

Definition createNote (API_BASE : string) (fetched : Completion Response)
  : Completion Note :=
  payload <- request API_BASE fetched ;; toUiNote (unwrapData payload).

Definition updateNote (API_BASE : string) (fetched : Completion Response)
  : Completion Note :=
  payload <- request API_BASE fetched ;; toUiNote (unwrapData payload).

Definition deleteNote (API_BASE : string) (fetched : Completion Response)
  : Completion unit :=
  _ <- request API_BASE fetched ;; Returned tt.

(* ------------------------------------------------------------------ *)
(** ** The normalization and extraction rules as the specification words them *)

(** A field is present when reading it gives neither undefined nor null;
    the value of the first present one among the candidates [keys]. *)
Fixpoint first_present (raw : JsValue) (keys : list string) : option JsValue :=
  match keys with
  | [] => None
  | k :: rest =>
      match prop raw k with
      | JUndefined | JNull => first_present raw rest
      | v => Some v
      end
  end.

(** The value of the first candidate whose value is truthy. *)
Fixpoint first_truthy (raw : JsValue) (keys : list string) : option JsValue :=
  match keys with
  | [] => None
  | k :: rest => if truthy (prop raw k) then Some (prop raw k) else first_truthy raw rest
  end.

(** [raw.k1 ?? raw.k2 ?? ... ?? last], the shape of [toUiNote]'s reads. *)
Definition chain (raw : JsValue) (keys : list string) (last : JsValue) : JsValue :=
  fold_right (fun k acc => prop raw k ?? acc) last keys.

Definition id_keys : list string := ["id"; "_id"; "noteId"].
Definition title_keys : list string := ["title"; "name"].
Definition content_keys : list string := ["content"; "body"; "text"].
Definition updatedAt_keys : list string :=
  ["updatedAt"; "updated_at"; "modifiedAt"; "modified_at"].
Definition createdAt_keys : list string := ["createdAt"; "created_at"].

(** Stringified; the empty string if none is present. *)
Definition stringified (found : option JsValue) : Completion string :=
  match found with
  | Some v => js_String v
  | None => Returned ""
  end.

(** A timestamp that is stringified and included exactly when a candidate
    is present. *)
Definition included_if_present (found : option JsValue) : Completion (option string) :=
  match found with
  | Some v => s <- js_String v ;; Returned (Some s)
  | None => Returned None
  end.

(** A timestamp that is stringified and included exactly when the first
    present candidate is truthy. *)
Definition included_if_truthy (found : option JsValue) : Completion (option string) :=
  match found with
  | Some v => if truthy v then s <- js_String v ;; Returned (Some s) else Returned None
  | None => Returned None
  end.

(** An object in the sense of [toUiNote]'s guard: [typeof] says "object"
    and the value is not null (arrays are objects). *)
Definition is_object (v : JsValue) : bool :=
  match v with
  | JArr _ | JObj _ => true
  | _ => false
  end.

(** Normalization by ordered candidate fields, for a rule [timestamp] that
    decides when a timestamp is included. *)
Definition normalize_with
  (timestamp : option JsValue -> Completion (option string)) (raw : JsValue)
  : Completion Note :=
  if is_object raw then
    i <- stringified (first_present raw id_keys) ;;
    t <- stringified (first_present raw title_keys) ;;
    c <- stringified (first_present raw content_keys) ;;
    u <- timestamp (first_present raw updatedAt_keys) ;;
    cr <- timestamp (first_present raw createdAt_keys) ;;
    Returned {| id := i; title := trim t; content := c; updatedAt := u; createdAt := cr |}
  else Returned empty_note.

(** The normalization algorithm as stated: a timestamp is included exactly
    when one of its candidates is present. *)
Definition toUiNote_stated : JsValue -> Completion Note :=
  normalize_with included_if_present.

(** The normalization algorithm as amended: a timestamp is included exactly
    when its first present candidate is truthy. *)
Definition toUiNote_amended : JsValue -> Completion Note :=
  normalize_with included_if_truthy.

(** A timestamp key that is set to the empty string is read as not set. *)
Definition nonempty (t : option string) : option string :=
  match t with
  | Some s => if s =? "" then None else Some s
  | None => None
  end.

Definition drop_empty_timestamps (n : Note) : Note :=
  {| id := id n; title := title n; content := content n;
     updatedAt := nonempty (updatedAt n); createdAt := nonempty (createdAt n) |}.

(** Normalize every element and drop those whose [id] is empty. *)
Definition normalized (xs : list JsValue) : Completion (list Note) :=
  ns <- mapM toUiNote xs ;; Returned (filter (fun n => negb (id n =? "")) ns).

(** The array held by the first of [keys] under which [payload] holds one. *)
Fixpoint first_array_under (payload : JsValue) (keys : list string)
  : option (list JsValue) :=
  match keys with
  | [] => None
  | k :: rest =>
      match prop payload k with
      | JArr xs => Some xs
      | _ => first_array_under payload rest
      end
  end.

(** The elements [listNotes] normalizes, as amended: an object payload with
    a [data] key stands for the value of that key; the value is then the
    array itself, or holds it under [items], or else under [notes]. *)
Definition items_amended (payload : JsValue) : list JsValue :=
  let inner := if has_prop payload "data" then prop payload "data" else payload in
  match inner with
  | JArr xs => xs
  | _ => match first_array_under inner ["items"; "notes"] with
         | Some xs => xs
         | None => []
         end
  end.

Definition generic_message (st : N) : string :=
  "Request failed (" ++ status_text st ++ ")".

Definition is_json_response (res : Response) : bool :=
  includes (match res_content_type res with Some c => c | None => "" end)
           "application/json".

(** The error message as stated: the text body of a response that is not
    JSON, else the JSON body's [message], else its [error], else the
    generic message. *)
Definition message_stated (res : Response) (payload : JsValue) : JsValue :=
  if negb (is_json_response res) then JStr (res_text res)
  else match first_truthy payload ["message"; "error"] with
       | Some v => v
       | None => JStr (generic_message (res_status res))
       end.

(** The error message as amended: the payload itself when it is a string
    (a body read as text, or a JSON body that is a string), else the first
    truthy of its [message] and [error], else the generic message. *)
Definition message_amended (st : N) (payload : JsValue) : JsValue :=
  match payload with
  | JStr _ => payload
  | _ => match first_truthy payload ["message"; "error"] with
         | Some v => v
         | None => JStr (generic_message st)
         end
  end.

(* ------------------------------------------------------------------ *)
(** ** Sample responses *)

(** The double quote, as a string. *)
Definition dquote : string := String (ascii_of_nat 34) EmptyString.

Definition API_BASE_example : string := "https://api.example.com".

(** A response that is labelled as JSON and parses to [parsed]. *)
Definition json_response (st : N) (body : string) (parsed : JsValue) : Response :=
  {| res_status := st; res_content_type := Some "application/json";
     res_text := body; res_json := Returned parsed |}.

Definition raw_1_A_x : JsValue :=
  JObj [("id", JStr "1"); ("title", JStr "A"); ("content", JStr "x")].

Definition note_1_A_x : Note :=
  {| id := "1"; title := "A"; content := "x"; updatedAt := None; createdAt := None |}.

(** A string between double quotes. *)
Definition quoted (s : string) : string := dquote ++ s ++ dquote.

(** [{data:{items:[{_id:"1",name:"A",body:"x"}]}}]. *)
Definition data_items_payload : JsValue :=
  JObj [("data", JObj [("items",
     JArr [JObj [("_id", JStr "1"); ("name", JStr "A"); ("body", JStr "x")]])])].

(** A 200 with that payload as its JSON body. *)
Definition data_items_response : Response :=
  json_response 200
    ("{" ++ quoted "data" ++ ":{" ++ quoted "items" ++ ":[{"
     ++ quoted "_id" ++ ":" ++ quoted "1" ++ "," ++ quoted "name" ++ ":" ++ quoted "A"
     ++ "," ++ quoted "body" ++ ":" ++ quoted "x" ++ "}]}}")
    data_items_payload.

(** A 200 whose JSON body is [null]. *)
Definition null_response : Response := json_response 200 "null" JNull.

(** A 201 whose JSON body is the note with id "1". *)
Definition created_response : Response :=
  json_response 201
    ("{" ++ quoted "id" ++ ":" ++ quoted "1" ++ "," ++ quoted "title" ++ ":"
     ++ quoted "A" ++ "," ++ quoted "content" ++ ":" ++ quoted "x" ++ "}")
    (note_value note_1_A_x).

(** A 204 without a body and without a content type. *)
Definition no_content_response : Response :=
  {| res_status := 204; res_content_type := None; res_text := "";
     res_json := Threw (ErrorObj "Unexpected end of JSON input") |}.

(** [{data:null, items:[{id:"1",title:"A",content:"x"}]}]. *)
Definition items_beside_null_data : JsValue :=
  JObj [("data", JNull); ("items", JArr [raw_1_A_x])].

(** A 200 with that payload as its JSON body. *)
Definition items_beside_null_data_response : Response :=
  json_response 200
    ("{" ++ quoted "data" ++ ":null," ++ quoted "items" ++ ":[{"
     ++ quoted "id" ++ ":" ++ quoted "1" ++ "," ++ quoted "title" ++ ":" ++ quoted "A"
     ++ "," ++ quoted "content" ++ ":" ++ quoted "x" ++ "}]}")
    items_beside_null_data.

(** A 422 whose JSON body is [{"error":"title too long"}]. *)
Definition title_too_long : Response :=
  json_response 422 ("{" ++ quoted "error" ++ ":" ++ quoted "title too long" ++ "}")
    (JObj [("error", JStr "title too long")]).

(** A 400 whose JSON body is the string ["Title is too long"]. *)
Definition json_string_body : Response :=
  json_response 400 (quoted "Title is too long") (JStr "Title is too long").

(** [{id:"1", title:"A", content:"x", updatedAt:""}]. *)
Definition raw_empty_updatedAt : JsValue :=
  JObj [("id", JStr "1"); ("title", JStr "A"); ("content", JStr "x");
        ("updatedAt", JStr "")].

(** [{id:"1", updatedAt:[]}]. *)
Definition raw_array_updatedAt : JsValue :=
  JObj [("id", JStr "1"); ("updatedAt", JArr [])].

(** [{id:7, name:"  Plan ", text:"x", modified_at:"2024-05-01T09:00:00.000Z"}],
    the number given by its two observations. *)
Definition raw_plan : JsValue :=
  JObj [("id", JNum {| num_repr := "7"; num_nonzero := true |});
        ("name", JStr "  Plan "); ("text", JStr "x");
        ("modified_at", JStr "2024-05-01T09:00:00.000Z")].

(* ================================================================== *)
(** * Date.parse *)

Local Open Scope Z_scope.

Definition digit_value (c : ascii) : option Z :=
  let n := Z.of_nat (nat_of_ascii c) in
  if (48 <=? n) && (n <=? 57) then Some (n - 48) else None.

Fixpoint digits_value (s : string) (acc : Z) : option Z :=
  match s with
  | EmptyString => Some acc
  | String c rest =>
      match digit_value c with
      | Some d => digits_value rest (10 * acc + d)
      | None => None
      end
  end.

(** The [len] decimal digits of [s] from position [start]. *)
Definition field (s : string) (start len : nat) : option Z :=
  digits_value (substring start len s) 0.

Definition is_leap (y : Z) : bool :=
  ((y mod 4 =? 0) && negb (y mod 100 =? 0)) || (y mod 400 =? 0).

Definition days_in_month (y m : Z) : Z :=
  if m =? 2 then (if is_leap y then 29 else 28)
  else if (m =? 4) || (m =? 6) || (m =? 9) || (m =? 11) then 30
  else 31.

(** Days from 1970-01-01 to the given day of the proleptic Gregorian
    calendar. *)
Definition days_from_civil (y m d : Z) : Z :=
  let y' := if m <=? 2 then y - 1 else y in
  let era := y' / 400 in
  let yoe := y' - era * 400 in
  let mp := (m + 9) mod 12 in
  let doy := (153 * mp + 2) / 5 + d - 1 in
  let doe := yoe * 365 + yoe / 4 - yoe / 100 + doy in
  era * 146097 + doe - 719468.

Definition char_at (s : string) (i : nat) (c : string) : bool :=
  (substring i 1 s =? c)%string.

(** The time value of a string in the complete UTC form of the Date Time
    String Format, [YYYY-MM-DDTHH:mm:ss.sssZ] (what [toISOString]
    produces), with every field in range. *)
Definition parse_utc_timestamp (s : string) : option Z :=
  if (String.length s =? 24)%nat
     && char_at s 4 "-" && char_at s 7 "-" && char_at s 10 "T"
     && char_at s 13 ":" && char_at s 16 ":" && char_at s 19 "."
     && char_at s 23 "Z"
  then
    match field s 0 4, field s 5 2, field s 8 2,
          field s 11 2, field s 14 2, field s 17 2, field s 20 3 with
    | Some y, Some mo, Some d, Some h, Some mi, Some sec, Some ms =>
        if (1 <=? mo) && (mo <=? 12) && (1 <=? d) && (d <=? days_in_month y mo)
           && (h <=? 23) && (mi <=? 59) && (sec <=? 59)
        then Some ((((days_from_civil y mo d * 24 + h) * 60 + mi) * 60 + sec) * 1000 + ms)
        else None
    | _, _, _, _, _, _, _ => None
    end
  else None.

Local Close Scope Z_scope.

(** [a || b] on two optional string keys of a note: [a] when it is set and
    not the empty string, [b] otherwise. *)
Definition or_key (a b : option string) : option string :=
  match a with
  | Some s => if s =? "" then b else a
  | None => b
  end.

(* ================================================================== *)
(** * The orchestrator ([App]) *)

Inductive Mode : Type := View | Edit | Create.

Definition Mode_eqb (a b : Mode) : bool :=
  match a, b with
  | View, View | Edit, Edit | Create, Create => true
  | _, _ => false
  end.

Record Draft : Type := { draft_title : string; draft_content : string }.

Definition EMPTY_DRAFT : Draft := {| draft_title := ""; draft_content := "" |}.

(** The eight [useState] cells of [App]. *)
Record State : Type := {
  notes : list Note;
  selectedId : option string;
  mode : Mode;
  draft : Draft;
  touched : bool;
  isBusy : bool;
  error : string;
  status : string
}.

Definition initial : State :=
  {| notes := []; selectedId := None; mode := View; draft := EMPTY_DRAFT;
     touched := false; isBusy := false; error := ""; status := "" |}.

Definition setNotes (v : list Note) (s : State) : State :=
  {| notes := v; selectedId := selectedId s; mode := mode s; draft := draft s;
     touched := touched s; isBusy := isBusy s; error := error s; status := status s |}.

Definition setSelectedId (v : option string) (s : State) : State :=
  {| notes := notes s; selectedId := v; mode := mode s; draft := draft s;
     touched := touched s; isBusy := isBusy s; error := error s; status := status s |}.

Definition setMode (v : Mode) (s : State) : State :=
  {| notes := notes s; selectedId := selectedId s; mode := v; draft := draft s;
     touched := touched s; isBusy := isBusy s; error := error s; status := status s |}.

Definition setDraft (v : Draft) (s : State) : State :=
  {| notes := notes s; selectedId := selectedId s; mode := mode s; draft := v;
     touched := touched s; isBusy := isBusy s; error := error s; status := status s |}.

Definition setTouched (v : bool) (s : State) : State :=
  {| notes := notes s; selectedId := selectedId s; mode := mode s; draft := draft s;
     touched := v; isBusy := isBusy s; error := error s; status := status s |}.

Definition setIsBusy (v : bool) (s : State) : State :=
  {| notes := notes s; selectedId := selectedId s; mode := mode s; draft := draft s;
     touched := touched s; isBusy := v; error := error s; status := status s |}.

Definition setError (v : string) (s : State) : State :=
  {| notes := notes s; selectedId := selectedId s; mode := mode s; draft := draft s;
     touched := touched s; isBusy := isBusy s; error := v; status := status s |}.

Definition setStatus (v : string) (s : State) : State :=
  {| notes := notes s; selectedId := selectedId s; mode := mode s; draft := draft s;
     touched := touched s; isBusy := isBusy s; error := error s; status := v |}.

(** [showStatus(msg)]; the timer that clears the message two seconds later
    is the event [EvStatusTimeout] below. *)
Definition showStatus (msg : string) (s : State) : State := setStatus msg s.

(** Sequencing of state updates: [s |> f |> g] is [f] then [g]. *)
Notation "s |> f" := (f s) (at level 45, left associativity, only parsing).

(** The operations of the Adapter, named as the orchestrator calls them. *)
Inductive AdapterCall : Type :=
| CallList
| CallCreate (title content : string)
| CallUpdate (noteId title content : string)
| CallDelete (noteId : string).

(** What the awaited Adapter calls settle to. *)
Record Adapter : Type := {
  api_listNotes : Completion (list Note);
  api_createNote : string -> string -> Completion Note;
  api_updateNote : string -> string -> string -> Completion Note;
  api_deleteNote : string -> Completion unit
}.

(** The Adapter that the API client above is, over a network that answers
    each call with what [fetch] settles to. *)
Definition notesApi (API_BASE : string) (net : AdapterCall -> Completion Response)
  : Adapter :=
  {| api_listNotes := listNotes API_BASE (net CallList);
     api_createNote := fun t c => createNote API_BASE (net (CallCreate t c));
     api_updateNote := fun i t c => updateNote API_BASE (net (CallUpdate i t c));
     api_deleteNote := fun i => deleteNote API_BASE (net (CallDelete i)) |}.

(** [e instanceof Error ? e.message : fallback]. *)
Definition message_of (e : Thrown) (fallback : string) : string :=
  match e with
  | ErrorObj m => m
  | NonError => fallback
  end.

Definition selectedNote (s : State) : option Note :=
  match selectedId s with
  | None => None
  | Some i => if i =? "" then None else find (fun n => id n =? i) (notes s)
  end.

Definition titleError (s : State) : string :=
  if negb (touched s) then ""
  else if trim (draft_title (draft s)) =? "" then "Title is required."
  else if (80 <? String.length (trim (draft_title (draft s))))%nat
       then "Title must be 80 characters or less."
  else "".

Definition canSave (s : State) : bool :=
  (titleError s =? "") && negb (trim (draft_title (draft s)) =? "") && negb (isBusy s).

(** [{ title: n.title || "", content: n.content || "" }]; on a string,
    [|| ""] changes nothing. *)
Definition draft_of (n : Note) : Draft :=
  {| draft_title := title n; draft_content := content n |}.

Definition handleCreate (s : State) : State :=
  s |> setError "" |> setMode Create |> setDraft EMPTY_DRAFT |> setTouched false.

Definition handleSelect (i : string) (s : State) : State :=
  s |> setError "" |> setSelectedId (Some i) |> setMode View |> setTouched false.

Definition handleStartEdit (s : State) : State :=
  match selectedNote s with
  | None => s
  | Some n => s |> setError "" |> setMode Edit |> setDraft (draft_of n) |> setTouched false
  end.

Definition handleCancel (s : State) : State :=
  s |> setError "" |> setMode View
    |> setDraft (match selectedNote s with Some n => draft_of n | None => EMPTY_DRAFT end)
    |> setTouched false.

(** An engine whose [Date.parse] accepts complete UTC timestamps only. *)
Definition no_other_formats : string -> option Z := fun _ => None.

Section Orchestrator.

(** [Date.parse] on the strings that are not complete UTC timestamps: the
    other forms of the Date Time String Format and whatever else the engine
    accepts; [None] is NaN. *)
Variable Date_parse_other : string -> option Z.

Definition Date_parse (s : string) : option Z :=
  match parse_utc_timestamp s with
  | Some t => Some t
  | None => Date_parse_other s
  end.

(** [toTs] of [sortNotes]: with [v = n.updatedAt || n.createdAt], the
    time value [ts] is [Date.parse(String(v))] when [v] is truthy and NaN
    otherwise, and the result is [ts] when it is finite and 0 otherwise. *)
Definition toTs (n : Note) : Z :=
  let v := or_key (updatedAt n) (createdAt n) in
  let ts := match v with
            | Some s => if s =? "" then None else Date_parse s
            | None => None
            end in
  match ts with
  | Some t => t
  | None => 0%Z
  end.

(** [Array.prototype.sort] is stable and the comparator
    [(a, b) => toTs(b) - toTs(a)] is consistent, so the result is the one
    stable arrangement by decreasing [toTs]; insertion from the right
    computes it. *)
Fixpoint insert_note (a : Note) (l : list Note) : list Note :=
  match l with
  | [] => [a]
  | b :: rest =>
      if (0 <? toTs b - toTs a)%Z then b :: insert_note a rest else a :: l
  end.

Definition sortNotes (l : list Note) : list Note := fold_right insert_note [] l.

(** [load] of the mount effect; [mounted] is the flag the cleanup clears. *)
Definition load (mounted : bool) (api : Adapter) (s : State)
  : State * list AdapterCall :=
  let s1 := s |> setIsBusy true |> setError "" |> setStatus "Loading notes..." in
  match api_listNotes api with
  | Returned items =>
      if negb mounted then (s1, [CallList])
      else
        let sorted := sortNotes items in
        let s2 := s1 |> setNotes sorted in
        let s3 := match sorted with
                  | first :: _ => s2 |> setSelectedId (Some (id first))
                  | [] => s2
                  end in
        (s3 |> setStatus "" |> setIsBusy false, [CallList])
  | Threw e =>
      if negb mounted then (s1, [CallList])
      else (s1 |> setError (message_of e "Failed to load notes.") |> setStatus ""
               |> setIsBusy false, [CallList])
  end.

Definition handleSave (api : Adapter) (s : State) : State * list AdapterCall :=
  let s1 := s |> setError "" |> setTouched true in
  let title := trim (draft_title (draft s)) in
  if title =? "" then (s1, [])
  else
    let s2 := s1 |> setIsBusy true in
    match mode s with
    | Create =>
        match api_createNote api title (draft_content (draft s)) with
        | Returned created =>
            let nextNotes := sortNotes (created :: notes s) in
            (s2 |> setNotes nextNotes |> setSelectedId (Some (id created))
                |> setMode View |> showStatus "Saved." |> setIsBusy false,
             [CallCreate title (draft_content (draft s))])
        | Threw e =>
            (s2 |> setError (message_of e "Save failed.") |> setIsBusy false,
             [CallCreate title (draft_content (draft s))])
        end
    | Edit =>
        match selectedNote s with
        | Some sel =>
            match api_updateNote api (id sel) title (draft_content (draft s)) with
            | Returned updated =>
                let nextNotes :=
                  sortNotes (map (fun n => if id n =? id updated then updated else n)
                                 (notes s)) in
                (s2 |> setNotes nextNotes |> setMode View |> showStatus "Updated."
                    |> setIsBusy false,
                 [CallUpdate (id sel) title (draft_content (draft s))])
            | Threw e =>
                (s2 |> setError (message_of e "Save failed.") |> setIsBusy false,
                 [CallUpdate (id sel) title (draft_content (draft s))])
            end
        | None => (s2 |> setIsBusy false, [])
        end
    | View => (s2 |> setIsBusy false, [])
    end.

(** The text of the confirmation prompt. *)
Definition delete_prompt (s : State) (i : string) : string :=
  let title := match find (fun n => id n =? i) (notes s) with
               | Some n => if title n =? "" then "Untitled" else title n
               | None => "Untitled"
               end in
  "Delete " ++ quoted title ++ "? This cannot be undone.".

(** [handleDelete]; [confirm] is [window.confirm]. *)
Definition handleDelete (confirm : string -> bool) (api : Adapter)
  (i : string) (s : State) : State * list AdapterCall :=
  let s1 := s |> setError "" in
  if negb (confirm (delete_prompt s i)) then (s1, [])
  else
    let s2 := s1 |> setIsBusy true in
    match api_deleteNote api i with
    | Returned _ =>
        let remaining := filter (fun n => negb (id n =? i)) (notes s) in
        let s3 := s2 |> setNotes (sortNotes remaining) in
        let s4 :=
          match selectedId s with
          | Some sel =>
              if sel =? i then
                let next := option_map id (hd_error remaining) in
                s3 |> setSelectedId next |> setMode View
                   |> setDraft (match hd_error remaining with
                                | Some first =>
                                    if id first =? "" then EMPTY_DRAFT else draft_of first
                                | None => EMPTY_DRAFT
                                end)
              else s3
          | None => s3
          end in
        (s4 |> showStatus "Deleted." |> setIsBusy false, [CallDelete i])
    | Threw e =>
        (s2 |> setError (message_of e "Delete failed.") |> setIsBusy false,
         [CallDelete i])
    end.

(** The form's [onSubmit]. *)
Definition handleSubmit (api : Adapter) (s : State) : State * list AdapterCall :=
  if canSave s then handleSave api s else (s |> setTouched true, []).

(** The effect with dependencies [[mode, selectedNote?.id]]: when they
    differ between the render of [prev] and that of [cur], and [cur] is in
    view mode with a selected note, the draft is set from that note. *)
Definition deps_changed (prev cur : State) : bool :=
  negb (Mode_eqb (mode prev) (mode cur))
  || negb (match option_map id (selectedNote prev), option_map id (selectedNote cur) with
           | Some a, Some b => a =? b
           | None, None => true
           | _, _ => false
           end).

Definition syncDraft (prev cur : State) : State :=
  if deps_changed prev cur then
    match mode cur, selectedNote cur with
    | View, Some n => cur |> setDraft (draft_of n) |> setTouched false
    | _, _ => cur
    end
  else cur.

(** What can happen to a mounted [App]: the settling of the initial load,
    the handlers, typing and leaving the title field, and the status
    timer. *)
Inductive Event : Type :=
| EvLoad
| EvSelect (noteId : string)
| EvRequestCreate
| EvRequestEdit
| EvCancel
| EvSave
| EvSubmit
| EvDelete (noteId : string)
| EvTitleInput (value : string)
| EvContentInput (value : string)
| EvTitleBlur
| EvStatusTimeout.

Definition handle (confirm : string -> bool) (api : Adapter) (ev : Event)
  (s : State) : State * list AdapterCall :=
  match ev with
  | EvLoad => load true api s
  | EvSelect i => (handleSelect i s, [])
  | EvRequestCreate => (handleCreate s, [])
  | EvRequestEdit => (handleStartEdit s, [])
  | EvCancel => (handleCancel s, [])
  | EvSave => handleSave api s
  | EvSubmit => handleSubmit api s
  | EvDelete i => handleDelete confirm api i s
  | EvTitleInput v =>
      (s |> setDraft {| draft_title := v; draft_content := draft_content (draft s) |}, [])
  | EvContentInput v =>
      (s |> setDraft {| draft_title := draft_title (draft s); draft_content := v |}, [])
  | EvTitleBlur => (s |> setTouched true, [])
  | EvStatusTimeout => (s |> setStatus "", [])
  end.

(** One event: the handler, then the effects of the render that follows. *)
Definition step (confirm : string -> bool) (api : Adapter) (ev : Event)
  (s : State) : State :=
  syncDraft s (fst (handle confirm api ev s)).

(** The states of a mounted [App], whatever the user confirms and whatever
    the Adapter answers. *)
Inductive reachable : State -> Prop :=
| reachable_initial : reachable initial
| reachable_step (s : State) (confirm : string -> bool) (api : Adapter) (ev : Event) :
    reachable s -> reachable (step confirm api ev s).

(** A sequence of events, under one user and one Adapter. *)
Definition run (confirm : string -> bool) (api : Adapter) (evs : list Event)
  (s : State) : State :=
  fold_left (fun st ev => step confirm api ev st) evs s.

(* ------------------------------------------------------------------ *)
(** ** The orchestrator's properties as the specification words them *)

(** [a] is not older than [b], by the time value [sortNotes] compares. *)
Definition not_older (a b : Note) : Prop := (toTs b <= toTs a)%Z.

Definition most_recent_first (l : list Note) : Prop := StronglySorted not_older l.

(** The most-recent-activity timestamp of a note: [updatedAt], falling
    back to [createdAt]; none when neither is set to a non-empty string. *)
Definition most_recent_stamp (n : Note) : option string :=
  match or_key (updatedAt n) (createdAt n) with
  | Some v => if v =? "" then None else Some v
  | None => None
  end.

(** The order as stated: [a] has the later most-recent-activity timestamp
    (both parse and [a]'s is greater), or [a] has one and [b] has neither
    timestamp, which counts as the oldest possible value. *)
Definition later_stated (a b : Note) : bool :=
  match most_recent_stamp a, most_recent_stamp b with
  | Some va, Some vb =>
      match Date_parse va, Date_parse vb with
      | Some ta, Some tb => (tb <? ta)%Z
      | _, _ => false
      end
  | Some va, None =>
      match Date_parse va with
      | Some _ => true
      | None => false
      end
  | None, _ => false
  end.

(** [note.id === selectedId], the test that marks a row as selected. *)
Definition isSelected (s : State) (n : Note) : bool :=
  match selectedId s with
  | Some i => id n =? i
  | None => false
  end.

(** The collection is stored most recent first, and nothing is selected
    only when it is empty. *)
Definition well_formed (s : State) : Prop :=
  most_recent_first (notes s) /\ (selectedId s = None -> notes s = []).

(** The error an Adapter call failed with, if it failed. *)
Definition failure_of (api : Adapter) (call : AdapterCall) : option Thrown :=
  match call with
  | CallList =>
      match api_listNotes api with Threw e => Some e | Returned _ => None end
  | CallCreate t c =>
      match api_createNote api t c with Threw e => Some e | Returned _ => None end
  | CallUpdate i t c =>
      match api_updateNote api i t c with Threw e => Some e | Returned _ => None end
  | CallDelete i =>
      match api_deleteNote api i with Threw e => Some e | Returned _ => None end
  end.





(** The Adapter keeps ids unique: the notes it lists have distinct ids and
    the note it creates has an id that no note of the collection has. *)
Definition assigns_unique_ids (api : Adapter) (s : State) : Prop :=
  (forall items, api_listNotes api = Returned items -> NoDup (map id items))
  /\ (forall t c created,
        api_createNote api t c = Returned created -> ~ In (id created) (map id (notes s))).

(** The states reachable over such Adapters. *)
Inductive reachable_unique : State -> Prop :=
| reachable_unique_initial : reachable_unique initial
| reachable_unique_step (s : State) (confirm : string -> bool) (api : Adapter)
    (ev : Event) :
    reachable_unique s -> assigns_unique_ids api s ->
    reachable_unique (step confirm api ev s).

(* ------------------------------------------------------------------ *)
(** ** Sample data *)

Definition always (answer : bool) : string -> bool := fun _ => answer.

Definition plain_note (i t c : string) : Note :=
  {| id := i; title := t; content := c; updatedAt := None; createdAt := None |}.

Definition note_2024 : Note :=
  {| id := "a"; title := "Groceries"; content := "milk";
     updatedAt := Some "2024-05-01T09:00:00.000Z";
     createdAt := Some "2024-04-30T18:30:00.000Z" |}.

Definition note_2023 : Note :=
  {| id := "b"; title := "Ideas"; content := "";
     updatedAt := None; createdAt := Some "2023-01-15T12:00:00.000Z" |}.

Definition note_1969 : Note :=
  {| id := "old"; title := "Archive"; content := "";
     updatedAt := Some "1969-12-31T23:59:59.000Z"; createdAt := None |}.

Definition note_undated : Note := plain_note "u" "Undated" "".

(** An Adapter that lists [items] and accepts every mutation. *)
Definition serving (items : list Note) : Adapter :=
  {| api_listNotes := Returned items;
     api_createNote := fun t c => Returned (plain_note "new" t c);
     api_updateNote := fun i t c => Returned (plain_note i t c);
     api_deleteNote := fun _ => Returned tt |}.


(** A network whose every call is answered with the same response. *)
Definition answering (res : Response) : AdapterCall -> Completion Response :=
  fun _ => Returned res.

(** A network that lists the note with id "1" and answers every other call
    with a 200 whose body is [null]. *)
Definition answering_null (call : AdapterCall) : Completion Response :=
  match call with
  | CallList => Returned data_items_response
  | _ => Returned null_response
  end.

(** After the initial load of two notes. *)
Definition loaded_two : State :=
  run (always true) (serving [note_2023; note_2024]) [EvLoad] initial.


(** A title of 81 characters. *)
Definition long_title : string :=
  "aaaaaaaaaaaaaaaaaaaaaaaaaaa" ++ "aaaaaaaaaaaaaaaaaaaaaaaaaaa"
  ++ "aaaaaaaaaaaaaaaaaaaaaaaaaaa".

(** A new note being composed, its title typed and the field not left. *)
Definition composing (api : Adapter) (t : string) : State :=
  run (always true) api [EvLoad; EvRequestCreate; EvTitleInput t] initial.

(** The note with id "a" being edited, a new title typed. *)
Definition retitling : State :=
  run (always true) (serving [note_2023; note_2024])
    [EvLoad; EvRequestEdit; EvTitleInput "Food"] initial.


(* ------------------------------------------------------------------ *)
(** ** What the client sends *)

(** [s.replace(/\/+$/, "")]: the run of slashes at the end removed. *)
Fixpoint strip_trailing_slashes (s : string) : string :=
  match s with
  | EmptyString => EmptyString
  | String c rest =>
      match strip_trailing_slashes rest with
      | EmptyString => if (c =? "/")%char then EmptyString else String c EmptyString
      | t => String c t
      end
  end.

(** [normalizeBase]; on a string, [base || ""] changes nothing. *)
Definition normalizeBase (base : string) : string := strip_trailing_slashes base.

Definition buildUrl (base path : string) : string :=
  let normalized := normalizeBase base in
  let p := if prefix "/" path then path else "/" ++ path in
  normalized ++ p.

(** The characters [encodeURIComponent] leaves as they are: letters,
    digits and [- _ . ! ~ * ' ( )]. *)
Definition is_unreserved (c : ascii) : bool :=
  let n := nat_of_ascii c in
  ((65 <=? n) && (n <=? 90) || (97 <=? n) && (n <=? 122) || (48 <=? n) && (n <=? 57)
   || (n =? 45) || (n =? 95) || (n =? 46) || (n =? 33) || (n =? 126)
   || (n =? 42) || (n =? 39) || (n =? 40) || (n =? 41))%nat.

(** The characters an escaped component is made of. *)
Definition is_url_safe (c : ascii) : bool := is_unreserved c || (c =? "%")%char.

Definition hex_upper (n : nat) : ascii :=
  if (n <? 10)%nat then ascii_of_nat (48 + n) else ascii_of_nat (55 + n).

(** [%XX] for the byte [b]. *)
Definition percent (b : nat) : string :=
  String "%" (String (hex_upper (b / 16)) (String (hex_upper (b mod 16)) EmptyString)).

(** One code unit, escaped: itself when unreserved, else the bytes of its
    UTF-8 encoding (one below 128, two from 128 to 255), each as [%XX]. *)
Definition encode_unit (c : ascii) : string :=
  let n := nat_of_ascii c in
  if is_unreserved c then String c EmptyString
  else if (n <? 128)%nat then percent n
  else percent (192 + n / 64) ++ percent (128 + n mod 64).

Fixpoint encodeURIComponent (s : string) : string :=
  match s with
  | EmptyString => EmptyString
  | String c rest => encode_unit c ++ encodeURIComponent rest
  end.

Definition hex_lower (n : nat) : ascii :=
  if (n <? 10)%nat then ascii_of_nat (48 + n) else ascii_of_nat (87 + n).

Definition backslash : string := String (ascii_of_nat 92) EmptyString.

(** One code unit inside a JSON string literal, as [JSON.stringify]
    writes it: the quote and the backslash escaped, the control characters
    as [\b \t \n \f \r] or [\u00xx], every other unit as it is. *)
Definition quote_unit (c : ascii) : string :=
  let n := nat_of_ascii c in
  if (n =? 34)%nat then backslash ++ dquote
  else if (n =? 92)%nat then backslash ++ backslash
  else if (n =? 8)%nat then backslash ++ "b"
  else if (n =? 12)%nat then backslash ++ "f"
  else if (n =? 10)%nat then backslash ++ "n"
  else if (n =? 13)%nat then backslash ++ "r"
  else if (n =? 9)%nat then backslash ++ "t"
  else if (n <? 32)%nat
       then backslash ++ "u00"
            ++ String (hex_lower (n / 16)) (String (hex_lower (n mod 16)) EmptyString)
  else String c EmptyString.

Fixpoint quote_units (s : string) : string :=
  match s with
  | EmptyString => EmptyString
  | String c rest => quote_unit c ++ quote_units rest
  end.

(** [JSON.stringify(s)] for a string [s]. *)
Definition JSON_quote (s : string) : string := dquote ++ quote_units s ++ dquote.

(** [JSON.stringify({ title: input.title, content: input.content })]. *)
Definition JSON_stringify_input (title content : string) : string :=
  "{" ++ quoted "title" ++ ":" ++ JSON_quote title ++ ","
      ++ quoted "content" ++ ":" ++ JSON_quote content ++ "}".

(** A headers object: its keys in insertion order. *)
Definition Headers : Type := list (string * string).

Fixpoint header (k : string) (h : Headers) : option string :=
  match h with
  | [] => None
  | (k', v) :: rest => if k' =? k then Some v else header k rest
  end.

(** [{ ...a, ...b }]: the keys of [a], each with the value [b] gives it
    when [b] has the key, then the keys of [b] that [a] lacks. *)
Definition spread (a b : Headers) : Headers :=
  (map (fun kv => (fst kv, match header (fst kv) b with
                           | Some v => v
                           | None => snd kv
                           end)) a
   ++ filter (fun kv => match header (fst kv) a with
                        | Some _ => false
                        | None => true
                        end) b)%list.

(** The [RequestInit] objects of this client: [method], [headers] and
    [body], each optional. *)
Record RequestInit : Type := {
  init_method : option string;
  init_headers : option Headers;
  init_body : option string
}.

Definition withJson (init : RequestInit) : RequestInit :=
  let headers :=
    spread [("Accept", "application/json")]
           (match init_headers init with Some h => h | None => [] end) in
  {| init_method := init_method init;
     init_headers := Some headers;
     init_body := init_body init |}.

(** The two arguments of a [fetch]. *)
Record FetchCall : Type := { call_url : string; call_init : RequestInit }.

Definition json_content_type : Headers := [("Content-Type", "application/json")].

(** What [request] passes to [fetch] for each operation of the client,
    once [API_BASE] is configured. *)
Definition fetch_call (API_BASE : string) (call : AdapterCall) : FetchCall :=
  match call with
  | CallList =>
      {| call_url := buildUrl API_BASE "/notes";
         call_init := withJson {| init_method := Some "GET"; init_headers := None;
                                  init_body := None |} |}
  | CallCreate t c =>
      {| call_url := buildUrl API_BASE "/notes";
         call_init := withJson {| init_method := Some "POST";
                                  init_headers := Some json_content_type;
                                  init_body := Some (JSON_stringify_input t c) |} |}
  | CallUpdate i t c =>
      {| call_url := buildUrl API_BASE ("/notes/" ++ encodeURIComponent i);
         call_init := withJson {| init_method := Some "PUT";
                                  init_headers := Some json_content_type;
                                  init_body := Some (JSON_stringify_input t c) |} |}
  | CallDelete i =>
      {| call_url := buildUrl API_BASE ("/notes/" ++ encodeURIComponent i);
         call_init := withJson {| init_method := Some "DELETE"; init_headers := None;
                                  init_body := None |} |}
  end.

(** [process.env.REACT_APP_API_BASE || process.env.REACT_APP_BACKEND_URL || ""],
    an unset variable being undefined. *)
Definition API_BASE_of (primary fallback : option string) : string :=
  match or_key primary fallback with
  | Some b => b
  | None => ""
  end.

(** One escaped unit read back from the front of a string. *)
Definition hex_value (c : ascii) : nat :=
  let n := nat_of_ascii c in
  if (n <? 58)%nat then n - 48 else if (n <? 71)%nat then n - 55 else n - 87.

Definition unescape_percent (s : string) : option (ascii * string) :=
  match s with
  | String c (String h1 (String h2 rest)) =>
      if (c =? "%")%char then
        let b := hex_value h1 * 16 + hex_value h2 in
        if (b <? 128)%nat then Some (ascii_of_nat b, rest)
        else match rest with
             | String _ (String h3 (String h4 rest')) =>
                 Some (ascii_of_nat ((b mod 32) * 64
                                     + (hex_value h3 * 16 + hex_value h4) mod 64),
                       rest')
             | _ => None
             end
      else Some (c, String h1 (String h2 rest))
  | String c rest => Some (c, rest)
  | EmptyString => None
  end.

Definition unescape_json (s : string) : option (ascii * string) :=
  match s with
  | String c rest =>
      if (nat_of_ascii c =? 92)%nat then
        match rest with
        | String e rest' =>
            let n := nat_of_ascii e in
            if (n =? 98)%nat then Some (ascii_of_nat 8, rest')
            else if (n =? 102)%nat then Some (ascii_of_nat 12, rest')
            else if (n =? 110)%nat then Some (ascii_of_nat 10, rest')
            else if (n =? 114)%nat then Some (ascii_of_nat 13, rest')
            else if (n =? 116)%nat then Some (ascii_of_nat 9, rest')
            else if (n =? 117)%nat then
              match rest' with
              | String _ (String _ (String h1 (String h2 rest''))) =>
                  Some (ascii_of_nat (hex_value h1 * 16 + hex_value h2), rest'')
              | _ => None
              end
            else Some (e, rest')
        | EmptyString => None
        end
      else Some (c, rest)
  | EmptyString => None
  end.

(* ------------------------------------------------------------------ *)
(** ** What the component renders *)

(** [s.split("\n")[0]]: the part before the first line feed. *)
Fixpoint first_line (s : string) : string :=
  match s with
  | EmptyString => EmptyString
  | String c rest =>
      if (nat_of_ascii c =? 10)%nat then EmptyString else String c (first_line rest)
  end.

(** The preview of a row:
    [(note.content || "").trim().split("\n")[0].slice(0, 80)]. *)
Definition preview (n : Note) : string :=
  substring 0 80 (first_line (trim (content n))).



(** What holds between two events of the user interface. *)
Definition consistent (s : State) : Prop :=
  isBusy s = false
  /\ (forall i, selectedId s = Some i -> In i (map id (notes s)))
  /\ (mode s = View -> forall n, selectedNote s = Some n -> draft s = draft_of n)
  /\ (mode s = Edit -> selectedNote s <> None).

(** The state [cur] a handler leaves from [s], before the effects of the
    next render: as [consistent], but the draft may still await its
    resynchronization. *)
Definition settled (s cur : State) : Prop :=
  isBusy cur = false
  /\ (forall i, selectedId cur = Some i -> In i (map id (notes cur)))
  /\ (mode cur = View -> forall n, selectedNote cur = Some n ->
      draft cur = draft_of n \/ deps_changed s cur = true)
  /\ (mode cur = Edit -> selectedNote cur <> None).

(** Values whose [String] needs no [toString] of an object. *)
Definition is_primitive (v : JsValue) : bool :=
  match v with
  | JArr _ | JObj _ => false
  | _ => true
  end.

(* ================================================================== *)
(** * Properties of the API client *)

(** ** Reading candidate fields *)

Lemma chain_first_present raw keys last :
  chain raw keys last =
  match first_present raw keys with Some v => v | None => last end.
Proof.
  induction keys as [|k keys IH]; simpl; [reflexivity|].
  destruct (prop raw k); simpl; auto.
Qed.

Lemma first_present_not_nullish raw keys v :
  first_present raw keys = Some v -> v <> JUndefined /\ v <> JNull.
Proof.
  induction keys as [|k keys IH]; simpl; [discriminate|].
  destruct (prop raw k) eqn:E; auto; intros [= <-]; split; discriminate.
Qed.

Lemma first_present_snoc raw keys k :
  first_present raw (keys ++ [k]) =
  match first_present raw keys with
  | Some v => Some v
  | None => first_present raw [k]
  end.
Proof.
  induction keys as [|k' keys IH]; simpl; [reflexivity|].
  destruct (prop raw k'); auto.
Qed.

Lemma string_of_chain raw keys :
  js_String (chain raw keys (JStr "")) = stringified (first_present raw keys).
Proof.
  rewrite chain_first_present. destruct (first_present raw keys); reflexivity.
Qed.

Lemma spread_of_value v :
  spread_if_truthy v =
  included_if_truthy (match v with JUndefined | JNull => None | _ => Some v end).
Proof. destruct v; reflexivity. Qed.

Lemma spread_of_chain raw keys k :
  spread_if_truthy (chain raw keys (prop raw k)) =
  included_if_truthy (first_present raw (keys ++ [k])).
Proof.
  rewrite chain_first_present, first_present_snoc.
  destruct (first_present raw keys) as [v|] eqn:E.
  - apply first_present_not_nullish in E. rewrite spread_of_value.
    destruct v; try reflexivity; destruct E; congruence.
  - rewrite spread_of_value. simpl. destruct (prop raw k); reflexivity.
Qed.

Lemma toUiNote_object raw :
  is_object raw = true ->
  toUiNote raw =
    (i <- js_String (chain raw id_keys (JStr "")) ;;
     t <- js_String (chain raw title_keys (JStr "")) ;;
     c <- js_String (chain raw content_keys (JStr "")) ;;
     u <- spread_if_truthy
            (chain raw ["updatedAt"; "updated_at"; "modifiedAt"] (prop raw "modified_at")) ;;
     cr <- spread_if_truthy (chain raw ["createdAt"] (prop raw "created_at")) ;;
     Returned {| id := i; title := trim t; content := c;
                 updatedAt := u; createdAt := cr |}).
Proof. destruct raw; try discriminate; intros _; reflexivity. Qed.

Lemma toUiNote_not_object raw :
  is_object raw = false -> toUiNote raw = Returned empty_note.
Proof.
  destruct raw; try discriminate; intros _; unfold toUiNote; simpl;
    rewrite ?orb_true_r; reflexivity.
Qed.

Lemma toUiNote_by_candidates raw : toUiNote raw = normalize_with included_if_truthy raw.
Proof.
  unfold normalize_with.
  destruct (is_object raw) eqn:O.
  - rewrite (toUiNote_object raw O), !string_of_chain.
    rewrite (spread_of_chain raw ["updatedAt"; "updated_at"; "modifiedAt"] "modified_at").
    rewrite (spread_of_chain raw ["createdAt"] "created_at").
    reflexivity.
  - apply toUiNote_not_object, O.
Qed.

(** C1, as amended.  For every raw value, [toUiNote] resolves [id],
    [title] (trimmed) and [content] as the stringified first present of
    their candidate fields (the empty string if none is present), includes
    [updatedAt] and [createdAt], stringified, exactly when the first present
    of their candidates is truthy, and gives the empty note on a value that
    is not an object. *)
Theorem toUiNote_ordered_candidates raw : toUiNote raw = toUiNote_amended raw.
Proof. exact (toUiNote_by_candidates raw). Qed.

(** ** Trimming *)

Lemma trimEnd_idempotent s : trimEnd (trimEnd s) = trimEnd s.
Proof.
  induction s as [|c s IH]; simpl; [reflexivity|].
  destruct (trimEnd s) as [|c' t] eqn:E.
  - destruct (is_space c) eqn:Sp; simpl; [reflexivity|]. rewrite Sp. reflexivity.
  - simpl in *. rewrite IH. reflexivity.
Qed.

Lemma trimEnd_keeps_head c s :
  is_space c = false -> exists t, trimEnd (String c s) = String c t.
Proof.
  intros Sp. simpl. destruct (trimEnd s); rewrite ?Sp; eauto.
Qed.

Lemma trimStart_head s :
  trimStart s = "" \/ exists c t, trimStart s = String c t /\ is_space c = false.
Proof.
  induction s as [|c s IH]; simpl; [now left|].
  destruct (is_space c) eqn:Sp; [exact IH|]. right. eauto.
Qed.

Lemma trim_idempotent s : trim (trim s) = trim s.
Proof.
  unfold trim. destruct (trimStart_head s) as [E | (c & t & E & Sp)]; rewrite E.
  - reflexivity.
  - destruct (trimEnd_keeps_head c t Sp) as [t' E'].
    assert (St : trimStart (trimEnd (String c t)) = trimEnd (String c t)).
    { rewrite E'. simpl. rewrite Sp. reflexivity. }
    rewrite St. apply trimEnd_idempotent.
Qed.

(** ** Normalizing a normalized note *)

Lemma bind_returned {A B} (c : Completion A) (k : A -> Completion B) b :
  bind c k = Returned b -> exists a, c = Returned a /\ k a = Returned b.
Proof. destruct c; simpl; [eauto | discriminate]. Qed.

Lemma toUiNote_title_trimmed raw n :
  toUiNote raw = Returned n -> trim (title n) = title n.
Proof.
  rewrite toUiNote_by_candidates. unfold normalize_with.
  destruct (is_object raw).
  - intros H.
    repeat (apply bind_returned in H; destruct H as (? & _ & H)).
    injection H as <-. simpl. apply trim_idempotent.
  - intros [= <-]. reflexivity.
Qed.

Lemma toUiNote_note_value n :
  trim (title n) = title n ->
  toUiNote (note_value n) = Returned (drop_empty_timestamps n).
Proof.
  destruct n as [i t c u cr]. simpl. intros T.
  unfold toUiNote, note_value, drop_empty_timestamps, spread_if_truthy.
  destruct u as [u|], cr as [cr|]; cbn -[trim]; rewrite T;
    repeat match goal with |- context [?x =? ""] => destruct (x =? "") end;
    reflexivity.
Qed.

Lemma nonempty_id t : t <> Some "" -> nonempty t = t.
Proof.
  destruct t as [x|]; simpl; intros H; [|reflexivity].
  destruct (String.eqb_spec x ""); [congruence | reflexivity].
Qed.

Lemma drop_empty_timestamps_id n :
  updatedAt n <> Some "" -> createdAt n <> Some "" -> drop_empty_timestamps n = n.
Proof.
  destruct n as [i t c u cr]; unfold drop_empty_timestamps; simpl. intros U C.
  rewrite (nonempty_id u U), (nonempty_id cr C). reflexivity.
Qed.

Lemma nonempty_idempotent t : nonempty (nonempty t) = nonempty t.
Proof.
  apply nonempty_id. destruct t as [x|]; simpl; [|discriminate].
  destruct (String.eqb_spec x ""); congruence.
Qed.

(** C9, as amended.  Normalizing an already-normalized note yields the
    same [id], [title] and [content], and the same [updatedAt] and
    [createdAt] except that a timestamp that is the empty string is dropped;
    so it yields the same note whenever neither timestamp is the empty
    string, and always from the second normalization on. *)
Theorem toUiNote_idempotent_but_empty_timestamps raw n :
  toUiNote raw = Returned n ->
  toUiNote (note_value n) = Returned (drop_empty_timestamps n)
  /\ (updatedAt n <> Some "" -> createdAt n <> Some "" ->
      toUiNote (note_value n) = Returned n)
  /\ toUiNote (note_value (drop_empty_timestamps n))
     = Returned (drop_empty_timestamps n).
Proof.
  intros H. pose proof (toUiNote_title_trimmed raw n H) as T.
  split; [apply toUiNote_note_value, T|]. split.
  - intros U C. rewrite (toUiNote_note_value n T), (drop_empty_timestamps_id n U C).
    reflexivity.
  - rewrite (toUiNote_note_value (drop_empty_timestamps n) T).
    unfold drop_empty_timestamps. simpl. rewrite !nonempty_idempotent. reflexivity.
Qed.

(** ** Listing *)

Lemma unwrapData_has_prop payload :
  unwrapData payload = if has_prop payload "data" then prop payload "data" else payload.
Proof.
  destruct payload; unfold unwrapData; simpl; rewrite ?andb_false_r; reflexivity.
Qed.

Lemma listNotes_of_payload_items payload :
  listNotes_of_payload payload = normalized (items_amended payload).
Proof.
  unfold listNotes_of_payload, items_amended, normalized.
  rewrite unwrapData_has_prop.
  set (inner := if has_prop payload "data" then prop payload "data" else payload).
  destruct inner eqn:E; try reflexivity.
  simpl.
  destruct (lookup "items" props) as [[]|]; simpl; try reflexivity;
    destruct (lookup "notes" props) as [[]|]; reflexivity.
Qed.

Lemma request_ok API_BASE res payload :
  (API_BASE =? "") = false -> ok res = true ->
  parseJsonOrText res = Returned payload ->
  request API_BASE (Returned res) = Returned payload.
Proof.
  intros B O P. unfold request. rewrite B. cbn [bind]. rewrite P. cbn [bind].
  rewrite O. reflexivity.
Qed.

(** C4, as amended.  For every successful read-all response, [listNotes]
    returns the normalized elements, those with an empty normalized [id]
    dropped, of the array found as follows: an object payload that has a
    [data] key stands for the value of that key; that value is the array
    itself, or else holds it under [items], or else under [notes]; any
    other shape yields the empty sequence. *)
Theorem listNotes_successful_response API_BASE res payload :
  (API_BASE =? "") = false -> ok res = true ->
  parseJsonOrText res = Returned payload ->
  listNotes API_BASE (Returned res) = normalized (items_amended payload).
Proof.
  intros B O P. unfold listNotes. rewrite (request_ok _ _ _ B O P). cbn [bind].
  apply listNotes_of_payload_items.
Qed.

(** ** Failed requests *)

Lemma message_of_payload st payload :
  (if typeof_string payload then payload
   else js_or (js_and payload (js_or (prop payload "message") (prop payload "error")))
              (JStr ("Request failed (" ++ status_text st ++ ")")))
  = message_amended st payload.
Proof.
  unfold message_amended, generic_message. cbn [first_truthy].
  generalize (JStr ("Request failed (" ++ status_text st ++ ")")) as generic.
  intros generic. destruct payload; try reflexivity.
  - destruct b; reflexivity.
  - unfold js_or, js_and. simpl.
    destruct (num_nonzero n) eqn:Z; simpl; rewrite ?Z; reflexivity.
  - generalize (prop (JObj props) "message") as m, (prop (JObj props) "error") as e.
    intros m e. unfold js_or, js_and. cbn [typeof_string truthy].
    destruct (truthy m) eqn:M; [rewrite M; reflexivity|].
    destruct (truthy e) eqn:Er; reflexivity.
Qed.

(** C8, as amended.  For every Adapter call whose response has a
    non-success status and a body that could be read, the call throws a
    single error whose message is, stringified: the payload itself when it
    is a string (the text of a body not labelled as JSON, or a JSON body
    that is a string), else the first truthy of the JSON body's [message]
    and [error] fields, else "Request failed (status)". *)
Theorem request_failure_message API_BASE res payload :
  (API_BASE =? "") = false -> ok res = false ->
  parseJsonOrText res = Returned payload ->
  request API_BASE (Returned res)
    = throw_new_Error (message_amended (res_status res) payload)
  /\ (is_json_response res = false ->
      request API_BASE (Returned res) = Threw (ErrorObj (res_text res)))
  /\ (forall m, message_amended (res_status res) payload = JStr m ->
      request API_BASE (Returned res) = Threw (ErrorObj m))
  /\ (exists e, request API_BASE (Returned res) = Threw e).
Proof.
  intros B O P.
  assert (R : request API_BASE (Returned res)
              = throw_new_Error (message_amended (res_status res) payload)).
  { unfold request. rewrite B. cbn [bind]. rewrite P. cbn [bind]. rewrite O.
    cbn [negb]. rewrite message_of_payload. reflexivity. }
  split; [exact R|]. split; [|split].
  - intros J. rewrite R. unfold parseJsonOrText in P.
    unfold is_json_response in J. rewrite J in P. injection P as <-. reflexivity.
  - intros m M. rewrite R, M. reflexivity.
  - rewrite R. unfold throw_new_Error.
    destruct (js_String (message_amended (res_status res) payload)); simpl; eauto.
Qed.

(** ** The operations of the client *)

Lemma normalized_ids xs ns :
  normalized xs = Returned ns -> Forall (fun n => id n <> "") ns.
Proof.
  unfold normalized. intros H. apply bind_returned in H.
  destruct H as (all & _ & H). injection H as <-.
  apply Forall_forall. intros n I. apply filter_In in I. destruct I as [_ I].
  destruct (String.eqb_spec (id n) ""); [discriminate | assumption].
Qed.

Lemma listNotes_ids API_BASE fetched ns :
  listNotes API_BASE fetched = Returned ns -> Forall (fun n => id n <> "") ns.
Proof.
  unfold listNotes. intros H. apply bind_returned in H.
  destruct H as (payload & _ & H). rewrite listNotes_of_payload_items in H.
  apply (normalized_ids _ _ H).
Qed.

(** X4.  Whatever the response, every note that [listNotes] returns has
    a non-empty [id]. *)
Theorem listNotes_addressable API_BASE fetched ns :
  listNotes API_BASE fetched = Returned ns -> Forall (fun n => id n <> "") ns.
Proof. exact (listNotes_ids API_BASE fetched ns). Qed.

(** X5.  An operation of the client fails exactly as its request fails:
    with the configuration error, with what [fetch] rejected with, or with
    the error of a non-success status; it resolves to no value then. *)
Theorem operations_fail_as_request API_BASE net call e :
  request API_BASE (net call) = Threw e ->
  failure_of (notesApi API_BASE net) call = Some e.
Proof.
  intros R. destruct call; simpl;
    unfold listNotes, createNote, updateNote, deleteNote; rewrite R; reflexivity.
Qed.

Lemma request_unconfigured fetched :
  request "" fetched = Threw (ErrorObj not_configured).
Proof. reflexivity. Qed.

Lemma API_BASE_of_unset primary fallback :
  (primary = None \/ primary = Some "") -> (fallback = None \/ fallback = Some "") ->
  API_BASE_of primary fallback = "".
Proof. intros [-> | ->] [-> | ->]; reflexivity. Qed.

(** ** URLs *)

Lemma strip_trailing_slashes_snoc s :
  strip_trailing_slashes (s ++ "/") = strip_trailing_slashes s.
Proof.
  induction s as [|c s IH]; [reflexivity|].
  cbn [append strip_trailing_slashes]. rewrite IH. reflexivity.
Qed.

Lemma strip_trailing_slashes_idempotent s :
  strip_trailing_slashes (strip_trailing_slashes s) = strip_trailing_slashes s.
Proof.
  induction s as [|c s IH]; simpl; [reflexivity|].
  destruct (strip_trailing_slashes s) as [|c' t] eqn:E.
  - destruct (c =? "/")%char eqn:Sl; simpl; [reflexivity|]. rewrite Sl. reflexivity.
  - simpl in *. rewrite IH. reflexivity.
Qed.

Lemma strip_trailing_slashes_end s t :
  strip_trailing_slashes s <> t ++ "/".
Proof.
  revert t. induction s as [|c s IH]; simpl; intros t.
  - destruct t; discriminate.
  - destruct (strip_trailing_slashes s) as [|c' u] eqn:E.
    + destruct (Ascii.eqb_spec c "/") as [->|N].
      * destruct t; discriminate.
      * destruct t as [|d [|d' t]]; simpl; try discriminate.
        intros [= -> ]. apply N. reflexivity.
    + destruct t as [|d t]; simpl; [discriminate|].
      intros [= -> H]. apply (IH t). exact H.
Qed.

(** X6.  The URL that [buildUrl] builds does not depend on the slashes at
    the end of the base nor on a slash at the start of the path: the base is
    cut before its trailing slashes, so that it never ends with one, and
    the path is joined to it by one slash. *)
Theorem buildUrl_slashes base path :
  buildUrl (base ++ "/") path = buildUrl base path
  /\ (prefix "/" path = false -> buildUrl base ("/" ++ path) = buildUrl base path)
  /\ normalizeBase (normalizeBase base) = normalizeBase base
  /\ (forall t, normalizeBase base <> t ++ "/").
Proof.
  unfold buildUrl, normalizeBase. split; [|split; [|split]].
  - rewrite strip_trailing_slashes_snoc. reflexivity.
  - intros P. rewrite P.
    assert (Q : prefix "/" ("/" ++ path) = true)
      by (simpl; destruct (ascii_dec "/" "/"); [destruct path; reflexivity | congruence]).
    rewrite Q. reflexivity.
  - apply strip_trailing_slashes_idempotent.
  - apply strip_trailing_slashes_end.
Qed.

Lemma encode_unit_safe c :
  forallb is_url_safe (list_ascii_of_string (encode_unit c)) = true.
Proof. destruct c as [[] [] [] [] [] [] [] []]; reflexivity. Qed.

Lemma list_ascii_of_string_app a b :
  list_ascii_of_string (a ++ b)
  = (list_ascii_of_string a ++ list_ascii_of_string b)%list.
Proof. induction a as [|c a IH]; simpl; [reflexivity|]. rewrite IH. reflexivity. Qed.

(** X7.  An escaped id holds only unreserved characters and percent
    signs: no slash, question mark, hash, ampersand or space, so that it
    stays one segment of the path of the note. *)
Theorem encodeURIComponent_safe s :
  forallb is_url_safe (list_ascii_of_string (encodeURIComponent s)) = true
  /\ (forall c, In c (list_ascii_of_string (encodeURIComponent s)) ->
      c <> "/"%char /\ c <> "?"%char /\ c <> "#"%char /\ c <> "&"%char
      /\ c <> " "%char).
Proof.
  assert (F : forallb is_url_safe (list_ascii_of_string (encodeURIComponent s)) = true).
  { induction s as [|c s IH]; simpl; [reflexivity|].
    rewrite list_ascii_of_string_app, forallb_app, encode_unit_safe. exact IH. }
  split; [exact F|]. intros c I.
  rewrite forallb_forall in F. specialize (F c I).
  repeat split; intros ->; discriminate.
Qed.

Lemma unescape_percent_encode_unit c rest :
  unescape_percent (encode_unit c ++ rest) = Some (c, rest).
Proof.
  destruct c as [[] [] [] [] [] [] [] []]; try reflexivity;
    destruct rest as [|r1 [|r2 rest]]; reflexivity.
Qed.

Lemma encodeURIComponent_injective s1 s2 :
  encodeURIComponent s1 = encodeURIComponent s2 -> s1 = s2.
Proof.
  revert s2. induction s1 as [|c1 s1 IH]; intros [|c2 s2] H; simpl in H.
  - reflexivity.
  - apply (f_equal unescape_percent) in H.
    rewrite unescape_percent_encode_unit in H. discriminate.
  - apply (f_equal unescape_percent) in H.
    rewrite unescape_percent_encode_unit in H. discriminate.
  - apply (f_equal unescape_percent) in H.
    rewrite !unescape_percent_encode_unit in H. injection H as -> H.
    f_equal. apply IH, H.
Qed.

(** ** Request bodies *)

Lemma unescape_json_quote_unit c rest :
  unescape_json (quote_unit c ++ rest) = Some (c, rest).
Proof.
  destruct c as [[] [] [] [] [] [] [] []]; reflexivity.
Qed.

Lemma quote_unit_not_quote c rest rest' :
  quote_unit c ++ rest <> dquote ++ rest'.
Proof.
  destruct c as [[] [] [] [] [] [] [] []]; discriminate.
Qed.

Lemma string_app_assoc (a b c : string) : (a ++ b) ++ c = a ++ b ++ c.
Proof. induction a as [|x a IH]; simpl; [reflexivity|]. rewrite IH. reflexivity. Qed.

Lemma quote_units_injective s1 s2 r1 r2 :
  quote_units s1 ++ dquote ++ r1 = quote_units s2 ++ dquote ++ r2 ->
  s1 = s2 /\ r1 = r2.
Proof.
  revert s2. induction s1 as [|c1 s1 IH]; intros [|c2 s2] H.
  - simpl in H. injection H as ->. auto.
  - exfalso. cbn [quote_units] in H. rewrite string_app_assoc in H.
    symmetry in H. apply (quote_unit_not_quote _ _ _ H).
  - exfalso. cbn [quote_units] in H. rewrite string_app_assoc in H.
    apply (quote_unit_not_quote _ _ _ H).
  - cbn [quote_units] in H. rewrite !string_app_assoc in H.
    apply (f_equal unescape_json) in H.
    rewrite !unescape_json_quote_unit in H. injection H as -> H.
    destruct (IH s2 H) as [-> ->]. auto.
Qed.

Lemma JSON_stringify_input_shape t c :
  JSON_stringify_input t c
  = ("{" ++ quoted "title" ++ ":" ++ dquote) ++ quote_units t ++ dquote
    ++ ("," ++ quoted "content" ++ ":" ++ dquote) ++ quote_units c ++ dquote ++ "}".
Proof.
  unfold JSON_stringify_input, JSON_quote. rewrite !string_app_assoc. reflexivity.
Qed.

Lemma append_injective_r (a b c : string) : a ++ b = a ++ c -> b = c.
Proof. induction a as [|x a IH]; simpl; [auto|]. intros [= H]. apply IH, H. Qed.

Lemma JSON_stringify_input_injective t1 c1 t2 c2 :
  JSON_stringify_input t1 c1 = JSON_stringify_input t2 c2 -> t1 = t2 /\ c1 = c2.
Proof.
  rewrite !JSON_stringify_input_shape. intros H.
  apply append_injective_r, quote_units_injective in H. destruct H as [-> H].
  apply append_injective_r, quote_units_injective in H. destruct H as [-> _]. auto.
Qed.

Lemma buildUrl_injective base p1 p2 :
  buildUrl base ("/notes/" ++ p1) = buildUrl base ("/notes/" ++ p2) -> p1 = p2.
Proof.
  unfold buildUrl. cbn [append prefix].
  destruct (ascii_dec "/" "/") as [_|N]; [|congruence].
  intros H. apply append_injective_r in H. injection H as H. exact H.
Qed.

(** X8.  For a given base, the requests of two calls of the client are
    the same only if the calls are: the method tells the operations apart
    (create and list share the URL), the escaped id in the URL tells the
    notes apart, and the JSON body tells the titles and contents apart. *)
Theorem fetch_call_injective API_BASE c1 c2 :
  fetch_call API_BASE c1 = fetch_call API_BASE c2 -> c1 = c2.
Proof.
  intros H.
  pose proof (f_equal (fun f => init_method (call_init f)) H) as M.
  pose proof (f_equal call_url H) as U.
  pose proof (f_equal (fun f => match init_body (call_init f) with
                                | Some b => b
                                | None => ""
                                end) H) as B.
  destruct c1 as [|t1 b1|i1 t1 b1|i1], c2 as [|t2 b2|i2 t2 b2|i2];
    try discriminate M; try reflexivity.
  - destruct (JSON_stringify_input_injective t1 b1 t2 b2 B) as [-> ->]. reflexivity.
  - destruct (JSON_stringify_input_injective t1 b1 t2 b2 B) as [-> ->].
    rewrite (encodeURIComponent_injective i1 i2 (buildUrl_injective API_BASE _ _ U)).
    reflexivity.
  - rewrite (encodeURIComponent_injective i1 i2 (buildUrl_injective API_BASE _ _ U)).
    reflexivity.
Qed.

Lemma header_app k (x y : Headers) :
  header k (x ++ y)%list
  = match header k x with Some v => Some v | None => header k y end.
Proof.
  induction x as [|[k' v] x IH]; simpl; [reflexivity|].
  destruct (k' =? k); [reflexivity | exact IH].
Qed.

Lemma header_overridden k (a b : Headers) :
  header k (map (fun kv => (fst kv, match header (fst kv) b with
                                    | Some v => v
                                    | None => snd kv
                                    end)) a)
  = match header k a with
    | Some v => Some (match header k b with Some w => w | None => v end)
    | None => None
    end.
Proof.
  induction a as [|[k' v] a IH]; simpl; [reflexivity|].
  destruct (String.eqb_spec k' k) as [->|N]; [reflexivity | exact IH].
Qed.

Lemma header_added k (a b : Headers) :
  header k a = None ->
  header k (filter (fun kv => match header (fst kv) a with
                              | Some _ => false
                              | None => true
                              end) b)
  = header k b.
Proof.
  intros A. induction b as [|[k' v] b IH]; simpl; [reflexivity|].
  destruct (String.eqb_spec k' k) as [->|N].
  - rewrite A. simpl. rewrite String.eqb_refl. reflexivity.
  - destruct (header k' a); simpl; [exact IH|].
    destruct (String.eqb_spec k' k); [congruence | exact IH].
Qed.

Lemma header_spread k (a b : Headers) :
  header k (spread a b)
  = match header k b with Some v => Some v | None => header k a end.
Proof.
  unfold spread. rewrite header_app, header_overridden.
  destruct (header k a) as [v|] eqn:A.
  - destruct (header k b); reflexivity.
  - rewrite (header_added k a b A). destruct (header k b); reflexivity.
Qed.

(** X9.  [withJson] keeps the method and the body of the request and
    every header the caller set, and adds ["Accept: application/json"]
    unless the caller set [Accept]. *)
Theorem withJson_headers init k :
  init_method (withJson init) = init_method init
  /\ init_body (withJson init) = init_body init
  /\ exists h,
       init_headers (withJson init) = Some h
       /\ header k h
          = match header k (match init_headers init with Some c => c | None => [] end) with
            | Some v => Some v
            | None => if k =? "Accept" then Some "application/json" else None
            end.
Proof.
  split; [reflexivity|]. split; [reflexivity|].
  eexists. split; [reflexivity|]. rewrite header_spread.
  destruct (header k _); [reflexivity|]. simpl. rewrite String.eqb_sym. reflexivity.
Qed.

(** ** Notes that come back from the server *)

Lemma unwrapData_note_value n : unwrapData (note_value n) = note_value n.
Proof.
  rewrite unwrapData_has_prop. destruct n as [i t c [u|] [cr|]]; reflexivity.
Qed.

(** X10.  When the server answers a create or an update with a note in
    the canonical shape, bare or wrapped under [data], whose title is
    trimmed and whose timestamps are not empty strings, the client returns
    exactly that note. *)
Theorem createNote_returns_canonical_note API_BASE res payload n :
  (API_BASE =? "") = false -> ok res = true ->
  parseJsonOrText res = Returned payload ->
  payload = note_value n \/ payload = JObj [("data", note_value n)] ->
  trim (title n) = title n -> updatedAt n <> Some "" -> createdAt n <> Some "" ->
  createNote API_BASE (Returned res) = Returned n
  /\ updateNote API_BASE (Returned res) = Returned n.
Proof.
  intros B O P Sh T U C.
  assert (E : toUiNote (unwrapData payload) = Returned n).
  { assert (W : unwrapData payload = note_value n).
    { destruct Sh as [-> | ->]; [apply unwrapData_note_value | reflexivity]. }
    rewrite W, (toUiNote_note_value n T), (drop_empty_timestamps_id n U C).
    reflexivity. }
  unfold createNote, updateNote. rewrite (request_ok _ _ _ B O P). cbn [bind].
  split; exact E.
Qed.

(** X11.  When a create or an update succeeds with a payload that is not
    an object (a text body, a JSON string, number, boolean or null, also
    under [data]), the client does not fail: it returns the note with empty
    id, title and content. *)
Theorem createNote_without_object API_BASE res payload :
  (API_BASE =? "") = false -> ok res = true ->
  parseJsonOrText res = Returned payload ->
  is_object (unwrapData payload) = false ->
  createNote API_BASE (Returned res) = Returned empty_note
  /\ updateNote API_BASE (Returned res) = Returned empty_note.
Proof.
  intros B O P N. unfold createNote, updateNote.
  rewrite (request_ok _ _ _ B O P). cbn [bind].
  rewrite (toUiNote_not_object _ N). auto.
Qed.

(** X12.  On a success status [deleteNote] resolves whatever the body
    holds, provided the body can be read: when the response is labelled as
    JSON and its body does not parse, the delete fails with the parser's
    error although the status is a success. *)
Theorem deleteNote_success_status API_BASE res :
  (API_BASE =? "") = false -> ok res = true ->
  deleteNote API_BASE (Returned res)
  = match parseJsonOrText res with
    | Returned _ => Returned tt
    | Threw e => Threw e
    end.
Proof.
  intros B O. unfold deleteNote, request. rewrite B. cbn [bind].
  destruct (parseJsonOrText res); cbn [bind]; [|reflexivity].
  rewrite O. reflexivity.
Qed.

(** ** Flat objects *)

Lemma js_String_primitive v :
  is_primitive v = true -> exists s, js_String v = Returned s.
Proof. destruct v as [| |[]| | | |]; try discriminate; simpl; eauto. Qed.

Lemma lookup_primitive k props :
  Forall (fun kv => is_primitive (snd kv) = true) props ->
  is_primitive (match lookup k props with Some x => x | None => JUndefined end) = true.
Proof.
  induction 1 as [|[k' v] props P F IH]; simpl; [reflexivity|].
  destruct (k' =? k); [exact P | exact IH].
Qed.

Lemma first_present_primitive raw keys v :
  (forall k, is_primitive (prop raw k) = true) ->
  first_present raw keys = Some v -> is_primitive v = true.
Proof.
  intros P. induction keys as [|k keys IH]; simpl; [discriminate|].
  specialize (P k). destruct (prop raw k); try discriminate; auto;
    intros [= <-]; reflexivity.
Qed.

(** X13.  Normalization cannot throw on a flat object: when every
    property of the raw object is a string, number, boolean or null,
    [toUiNote] returns a note. *)
Theorem toUiNote_flat_object props :
  Forall (fun kv => is_primitive (snd kv) = true) props ->
  exists n, toUiNote (JObj props) = Returned n.
Proof.
  intros F. rewrite toUiNote_by_candidates. unfold normalize_with. cbn [is_object].
  assert (P : forall k, is_primitive (prop (JObj props) k) = true)
    by (intros k; apply lookup_primitive, F).
  assert (S : forall keys, exists s,
             stringified (first_present (JObj props) keys) = Returned s).
  { intros keys. destruct (first_present (JObj props) keys) as [v|] eqn:E; simpl;
      [|eauto]. apply js_String_primitive, (first_present_primitive _ keys v P E). }
  assert (T : forall keys, exists t,
             included_if_truthy (first_present (JObj props) keys) = Returned t).
  { intros keys. destruct (first_present (JObj props) keys) as [v|] eqn:E; simpl;
      [|eauto]. destruct (truthy v); [|eauto].
    destruct (js_String_primitive v (first_present_primitive _ keys v P E)) as [x ->].
    simpl. eauto. }
  destruct (S id_keys) as [i ->], (S title_keys) as [t ->],
    (S content_keys) as [c ->], (T updatedAt_keys) as [u ->],
    (T createdAt_keys) as [cr ->].
  simpl. eauto.
Qed.

(** ** The preview of a row *)

Lemma substring_0_length n s : (String.length (substring 0 n s) <= n)%nat.
Proof.
  revert s. induction n as [|n IH]; intros [|c s]; simpl; try lia.
  specialize (IH s). lia.
Qed.

Lemma substring_0_In n s c :
  In c (list_ascii_of_string (substring 0 n s)) -> In c (list_ascii_of_string s).
Proof.
  revert s. induction n as [|n IH]; intros [|d s]; simpl; try tauto.
  intros [-> | I]; [now left | right; apply IH, I].
Qed.

Lemma first_line_no_line_feed s :
  ~ In (ascii_of_nat 10) (list_ascii_of_string (first_line s)).
Proof.
  induction s as [|c s IH]; simpl; [tauto|].
  destruct (Nat.eqb_spec (nat_of_ascii c) 10) as [E|N]; simpl; [tauto|].
  intros [E | I]; [apply N; rewrite E; reflexivity | apply IH, I].
Qed.

Lemma trim_head s :
  trim s = "" \/ exists c t, trim s = String c t /\ is_space c = false.
Proof.
  unfold trim. destruct (trimStart_head s) as [-> | (c & t & -> & Sp)]; [now left|].
  right. destruct (trimEnd_keeps_head c t Sp) as [t' ->]. eauto.
Qed.

(** X14.  The preview of a row has at most 80 characters, holds no line
    feed, and does not start with white space. *)
Theorem preview_bounds n :
  (String.length (preview n) <= 80)%nat
  /\ ~ In (ascii_of_nat 10) (list_ascii_of_string (preview n))
  /\ (preview n = "" \/ exists c t, preview n = String c t /\ is_space c = false).
Proof.
  unfold preview. split; [apply substring_0_length|]. split.
  - intros I. apply substring_0_In in I. apply (first_line_no_line_feed _ I).
  - destruct (trim_head (content n)) as [-> | (c & t & -> & Sp)]; [now left|].
    right. simpl.
    destruct (Nat.eqb_spec (nat_of_ascii c) 10) as [E|N].
    + exfalso. unfold is_space in Sp. rewrite E in Sp. discriminate.
    + simpl. eauto.
Qed.

(* ================================================================== *)
(** * Properties of the orchestrator *)

(** ** The sort *)

Lemma insert_note_perm a l : Permutation (a :: l) (insert_note a l).
Proof.
  induction l as [|b l IH]; simpl; [reflexivity|].
  destruct (0 <? toTs b - toTs a)%Z; [|reflexivity].
  rewrite perm_swap. constructor. exact IH.
Qed.

Lemma sortNotes_perm l : Permutation l (sortNotes l).
Proof.
  induction l as [|a l IH]; simpl; [constructor|].
  rewrite <- insert_note_perm. constructor. exact IH.
Qed.

Lemma insert_note_sorted a l :
  most_recent_first l -> most_recent_first (insert_note a l).
Proof.
  unfold most_recent_first.
  induction l as [|b l IH]; simpl; intros S.
  - repeat constructor.
  - apply StronglySorted_inv in S. destruct S as [S F].
    destruct (0 <? toTs b - toTs a)%Z eqn:C.
    + apply Z.ltb_lt in C. constructor; [apply IH, S|].
      apply (Permutation_Forall (insert_note_perm a l)).
      constructor; [unfold not_older; lia | exact F].
    + apply Z.ltb_ge in C. constructor; [constructor; assumption|].
      constructor; [unfold not_older; lia|].
      eapply Forall_impl; [|exact F]. unfold not_older. intros; lia.
Qed.

Lemma sortNotes_sorted l : most_recent_first (sortNotes l).
Proof.
  induction l as [|a l IH]; simpl; [constructor|]. apply insert_note_sorted, IH.
Qed.

Lemma sortNotes_fixed l : most_recent_first l -> sortNotes l = l.
Proof.
  unfold most_recent_first.
  induction l as [|a l IH]; simpl; intros S; [reflexivity|].
  apply StronglySorted_inv in S. destruct S as [S F]. rewrite (IH S).
  destruct l as [|b l]; [reflexivity|]. simpl.
  apply Forall_inv in F. unfold not_older in F.
  destruct (Z.ltb_spec 0 (toTs b - toTs a)); [lia | reflexivity].
Qed.


Lemma most_recent_first_split l1 b l2 a :
  most_recent_first (l1 ++ b :: l2) -> In a l2 -> (toTs a <= toTs b)%Z.
Proof.
  unfold most_recent_first. induction l1 as [|x l1 IH]; simpl; intros S I.
  - apply StronglySorted_inv in S. destruct S as [_ F].
    rewrite Forall_forall in F. apply F, I.
  - apply StronglySorted_inv in S. apply IH; tauto.
Qed.

Lemma toTs_no_timestamp n :
  updatedAt n = None -> createdAt n = None -> toTs n = 0%Z.
Proof. unfold toTs. intros -> ->. reflexivity. Qed.

Lemma toTs_parsed n v t :
  most_recent_stamp n = Some v -> Date_parse v = Some t -> toTs n = t.
Proof.
  unfold toTs, most_recent_stamp.
  destruct (or_key (updatedAt n) (createdAt n)) as [w|]; [|discriminate].
  destruct (w =? ""); [discriminate|]. intros [= ->] ->. reflexivity.
Qed.

Lemma toTs_unparsed n v :
  most_recent_stamp n = Some v -> Date_parse v = None -> toTs n = 0%Z.
Proof.
  unfold toTs, most_recent_stamp.
  destruct (or_key (updatedAt n) (createdAt n)) as [w|]; [|discriminate].
  destruct (w =? ""); [discriminate|]. intros [= ->] ->. reflexivity.
Qed.

(** Notes with the same time value keep their relative order. *)
Lemma insert_note_stable t a l :
  filter (fun n => (toTs n =? t)%Z) (insert_note a l)
  = filter (fun n => (toTs n =? t)%Z) (a :: l).
Proof.
  induction l as [|b l IH]; [reflexivity|]. cbn [insert_note].
  destruct (Z.ltb_spec 0 (toTs b - toTs a)) as [L|L]; [|reflexivity].
  cbn [filter] in *. rewrite IH.
  destruct (Z.eqb_spec (toTs a) t), (Z.eqb_spec (toTs b) t); try reflexivity. lia.
Qed.

Lemma sortNotes_stable t l :
  filter (fun n => (toTs n =? t)%Z) (sortNotes l)
  = filter (fun n => (toTs n =? t)%Z) l.
Proof.
  induction l as [|a l IH]; [reflexivity|].
  change (sortNotes (a :: l)) with (insert_note a (sortNotes l)).
  rewrite insert_note_stable. cbn [filter]. rewrite IH. reflexivity.
Qed.

(** C2, as amended.  For every collection, [sortNotes] rearranges it so
    that no note comes after a note with an earlier time value, where the
    time value of a note is its parsed most-recent-activity timestamp
    ([updatedAt], falling back to [createdAt]) and that of a note with
    neither timestamp, or with one that does not parse, is 0, the Unix
    epoch: such a note sorts after every note dated later than 1970 and
    before every note dated earlier.  Notes with the same time value keep
    their relative order. *)
Theorem sortNotes_most_recent_first l :
  Permutation l (sortNotes l)
  /\ (forall l1 b l2 a,
        sortNotes l = (l1 ++ b :: l2)%list -> In a l2 -> (toTs a <= toTs b)%Z)
  /\ (forall n v t,
        most_recent_stamp n = Some v -> Date_parse v = Some t -> toTs n = t)
  /\ (forall n, updatedAt n = None -> createdAt n = None -> toTs n = 0%Z)
  /\ (forall n v,
        most_recent_stamp n = Some v -> Date_parse v = None -> toTs n = 0%Z)
  /\ (forall t, filter (fun n => (toTs n =? t)%Z) (sortNotes l)
                = filter (fun n => (toTs n =? t)%Z) l).
Proof.
  split; [apply sortNotes_perm|]. split; [|split; [|split; [|split]]].
  - intros l1 b l2 a E. apply (most_recent_first_split l1). rewrite <- E.
    apply sortNotes_sorted.
  - apply toTs_parsed.
  - apply toTs_no_timestamp.
  - apply toTs_unparsed.
  - intros t. apply sortNotes_stable.
Qed.

(** Whatever else the engine parses, a note with neither timestamp is
    placed before a note dated one second before the epoch. *)
Lemma undated_before_1969 :
  sortNotes [note_1969; note_undated] = [note_undated; note_1969]
  /\ later_stated note_1969 note_undated = true.
Proof. split; reflexivity. Qed.

(** ** The effect that resynchronizes the draft *)

Lemma syncDraft_frame prev cur :
  notes (syncDraft prev cur) = notes cur
  /\ selectedId (syncDraft prev cur) = selectedId cur
  /\ mode (syncDraft prev cur) = mode cur.
Proof.
  unfold syncDraft. destruct (deps_changed prev cur); [|repeat split].
  destruct (mode cur) eqn:M, (selectedNote cur); simpl; repeat split; auto.
Qed.

Lemma deps_unchanged prev cur :
  mode cur = mode prev -> notes cur = notes prev -> selectedId cur = selectedId prev ->
  deps_changed prev cur = false.
Proof.
  intros M N S. unfold deps_changed, selectedNote. rewrite M, N, S.
  assert (E : Mode_eqb (mode prev) (mode prev) = true)
    by (destruct (mode prev); reflexivity).
  rewrite E. simpl.
  destruct (selectedId prev) as [i|]; [|reflexivity].
  destruct (i =? ""); [reflexivity|].
  destruct (find _ _); simpl; [rewrite String.eqb_refl|]; reflexivity.
Qed.

Lemma syncDraft_unchanged prev cur :
  mode cur = mode prev -> notes cur = notes prev -> selectedId cur = selectedId prev ->
  syncDraft prev cur = cur.
Proof.
  intros M N S. unfold syncDraft. rewrite (deps_unchanged prev cur M N S). reflexivity.
Qed.

Lemma syncDraft_no_selection prev cur :
  selectedNote cur = None -> syncDraft prev cur = cur.
Proof.
  intros E. unfold syncDraft. rewrite E.
  destruct (deps_changed prev cur), (mode cur); reflexivity.
Qed.

(** ** The invariant of the reachable states *)

Lemma well_formed_syncDraft prev cur :
  well_formed cur -> well_formed (syncDraft prev cur).
Proof.
  unfold well_formed. destruct (syncDraft_frame prev cur) as (-> & -> & _). tauto.
Qed.

Lemma selectedNote_Some s n : selectedNote s = Some n -> selectedId s = Some (id n).
Proof.
  unfold selectedNote. destruct (selectedId s) as [i|]; [|discriminate].
  destruct (i =? ""); [discriminate|]. intros F. apply find_some in F.
  destruct F as [_ E]. apply String.eqb_eq in E. congruence.
Qed.

Lemma well_formed_load api s : well_formed s -> well_formed (fst (load true api s)).
Proof.
  intros W. unfold load. destruct (api_listNotes api) as [items|e]; simpl.
  - split.
    + destruct (sortNotes items) eqn:E; simpl; rewrite <- ?E; apply sortNotes_sorted.
    + destruct (sortNotes items) eqn:E; simpl; [reflexivity | discriminate].
  - exact W.
Qed.

Lemma well_formed_handleSave api s :
  well_formed s -> well_formed (fst (handleSave api s)).
Proof.
  intros W. unfold handleSave.
  destruct (trim (draft_title (draft s)) =? ""); [exact W|].
  destruct (mode s).
  - exact W.
  - destruct (selectedNote s) as [sel|] eqn:Sel; [|exact W].
    destruct (api_updateNote api _ _ _); simpl; [|exact W].
    split; simpl; [apply sortNotes_sorted|].
    apply selectedNote_Some in Sel. congruence.
  - destruct (api_createNote api _ _) as [created|]; simpl; [|exact W].
    split; simpl; [apply (sortNotes_sorted (created :: notes s)) | discriminate].
Qed.

Lemma well_formed_handleDelete confirm api i s :
  well_formed s -> well_formed (fst (handleDelete confirm api i s)).
Proof.
  intros W. unfold handleDelete.
  destruct (confirm _); simpl; [|exact W].
  destruct (api_deleteNote api i); simpl; [|exact W].
  destruct W as [Srt Sel].
  destruct (selectedId s) as [sel|] eqn:E.
  - destruct (sel =? i); split; simpl; try apply sortNotes_sorted.
    + destruct (filter _ (notes s)); simpl; [reflexivity | discriminate].
    + rewrite E. discriminate.
  - split; simpl; [apply sortNotes_sorted|]. rewrite (Sel eq_refl). reflexivity.
Qed.

Lemma well_formed_step confirm api ev s :
  well_formed s -> well_formed (step confirm api ev s).
Proof.
  intros W. unfold step. apply well_formed_syncDraft.
  destruct ev; simpl; try exact W.
  - apply well_formed_load, W.
  - split; simpl; [apply W | discriminate].
  - unfold handleStartEdit. destruct (selectedNote s); exact W.
  - apply well_formed_handleSave, W.
  - unfold handleSubmit. destruct (canSave s); [apply well_formed_handleSave|]; exact W.
  - apply well_formed_handleDelete, W.
Qed.

Lemma well_formed_reachable s : reachable s -> well_formed s.
Proof.
  induction 1 as [|s confirm api ev R IH].
  - split; [constructor | reflexivity].
  - apply well_formed_step, IH.
Qed.

Lemma reachable_run confirm api evs s : reachable s -> reachable (run confirm api evs s).
Proof.
  unfold run. revert s. induction evs as [|ev evs IH]; simpl; intros s R; [exact R|].
  apply IH. constructor. exact R.
Qed.

Lemma count_selected_unique s :
  NoDup (map id (notes s)) -> (length (filter (isSelected s) (notes s)) <= 1)%nat.
Proof.
  unfold isSelected. destruct (selectedId s) as [i|].
  - induction (notes s) as [|n l IH]; simpl; [lia|]. intros D.
    apply NoDup_cons_iff in D. destruct D as [Nin D].
    destruct (String.eqb_spec (id n) i) as [E|E]; [|apply IH, D].
    simpl. assert (Z : filter (fun n0 : Note => id n0 =? i) l = []).
    { clear -Nin E. induction l as [|m l IH]; simpl in *; [reflexivity|].
      destruct (String.eqb_spec (id m) i); [exfalso; apply Nin; left; congruence|].
      apply IH. tauto. }
    rewrite Z. simpl. lia.
  - intros _. induction (notes s); simpl; auto.
Qed.


(** ** Unique ids *)

Lemma NoDup_ids_filter f (l : list Note) :
  NoDup (map id l) -> NoDup (map id (filter f l)).
Proof.
  induction l as [|n l IH]; simpl; intros D; [constructor|].
  apply NoDup_cons_iff in D. destruct D as [Nin D].
  destruct (f n); simpl; [|apply IH, D].
  constructor; [|apply IH, D]. intros I. apply Nin.
  apply in_map_iff in I. destruct I as (m & E & I). apply filter_In in I.
  apply in_map_iff. exists m. tauto.
Qed.

Lemma ids_of_replaced updated (l : list Note) :
  map id (map (fun n => if id n =? id updated then updated else n) l) = map id l.
Proof.
  induction l as [|n l IH]; simpl; [reflexivity|]. rewrite IH. f_equal.
  destruct (String.eqb_spec (id n) (id updated)); congruence.
Qed.

Lemma NoDup_ids_sortNotes l : NoDup (map id l) -> NoDup (map id (sortNotes l)).
Proof.
  apply Permutation_NoDup, Permutation_map, sortNotes_perm.
Qed.

Lemma unique_ids_step confirm api ev s :
  assigns_unique_ids api s -> NoDup (map id (notes s)) ->
  NoDup (map id (notes (step confirm api ev s))).
Proof.
  intros [L C] D. unfold step.
  destruct (syncDraft_frame s (fst (handle confirm api ev s))) as (-> & _).
  assert (Save : NoDup (map id (notes (fst (handleSave api s))))).
  { unfold handleSave. destruct (trim (draft_title (draft s)) =? ""); [exact D|].
    destruct (mode s); [exact D| |].
    - destruct (selectedNote s) as [sel|]; [|exact D].
      destruct (api_updateNote api _ _ _) as [updated|]; simpl; [|exact D].
      apply NoDup_ids_sortNotes. rewrite ids_of_replaced. exact D.
    - destruct (api_createNote api _ _) as [created|] eqn:A; simpl; [|exact D].
      apply (NoDup_ids_sortNotes (created :: notes s)). simpl.
      constructor; [apply (C _ _ _ A) | exact D]. }
  destruct ev; simpl; try exact D; try exact Save.
  - unfold load. destruct (api_listNotes api) as [items|] eqn:A; simpl; [|exact D].
    assert (S : NoDup (map id (sortNotes items)))
      by apply NoDup_ids_sortNotes, L, eq_refl.
    destruct (sortNotes items); simpl; exact S.
  - unfold handleStartEdit. destruct (selectedNote s); exact D.
  - unfold handleSubmit. destruct (canSave s); [exact Save | exact D].
  - unfold handleDelete. destruct (confirm _); simpl; [|exact D].
    destruct (api_deleteNote api noteId); simpl; [|exact D].
    assert (S : NoDup (map id (sortNotes
                 (filter (fun n => negb (id n =? noteId)) (notes s)))))
      by apply NoDup_ids_sortNotes, NoDup_ids_filter, D.
    destruct (selectedId s) as [sel|]; [destruct (sel =? noteId)|]; simpl; exact S.
Qed.

(** X3.  While the Adapter keeps ids unique, the ids of the collection
    are distinct in every reachable state and at most one row is marked
    selected. *)
Theorem reachable_unique_one_selected s :
  reachable_unique s ->
  NoDup (map id (notes s))
  /\ (length (filter (isSelected s) (notes s)) <= 1)%nat.
Proof.
  intros R.
  assert (D : NoDup (map id (notes s))).
  { induction R as [|s confirm api ev R IH U]; [constructor|].
    apply unique_ids_step; assumption. }
  split; [exact D | apply count_selected_unique, D].
Qed.

(** ** Delete *)

(** C10.  When the user declines the confirmation prompt, delete makes no
    Adapter call and leaves the note collection, the selection, the mode,
    the draft and the busy flag unchanged; the error message is cleared. *)
Theorem handleDelete_declined confirm api i s :
  confirm (delete_prompt s i) = false ->
  snd (handle confirm api (EvDelete i) s) = []
  /\ step confirm api (EvDelete i) s = setError "" s.
Proof.
  intros C. unfold step. simpl. unfold handleDelete. rewrite C. simpl.
  split; [reflexivity|]. apply syncDraft_unchanged; reflexivity.
Qed.


(** ** Save *)



(** X1.  A save with a title that is empty after trimming makes no Adapter
    call, leaves the mode and the collection unchanged, and surfaces the
    field error "Title is required.". *)
Theorem handleSave_blank_title confirm api s :
  trim (draft_title (draft s)) = "" ->
  snd (handle confirm api EvSave s) = []
  /\ step confirm api EvSave s = setTouched true (setError "" s)
  /\ titleError (step confirm api EvSave s) = "Title is required.".
Proof.
  intros T.
  assert (H : handle confirm api EvSave s = (setTouched true (setError "" s), [])).
  { simpl. unfold handleSave. rewrite T. reflexivity. }
  unfold step. rewrite H. cbn [fst snd].
  rewrite syncDraft_unchanged by reflexivity.
  split; [reflexivity|]. split; [reflexivity|].
  unfold titleError. simpl. rewrite T. reflexivity.
Qed.

(** X2.  Once the title field has been touched, submitting a draft whose
    trimmed title exceeds 80 characters makes no Adapter call, changes
    nothing else, and shows "Title must be 80 characters or less.". *)
Theorem handleSubmit_touched_overlong confirm api s :
  touched s = true ->
  (80 < String.length (trim (draft_title (draft s))))%nat ->
  snd (handle confirm api EvSubmit s) = []
  /\ step confirm api EvSubmit s = s
  /\ titleError s = "Title must be 80 characters or less.".
Proof.
  intros Tc L.
  assert (E : titleError s = "Title must be 80 characters or less.").
  { unfold titleError. rewrite Tc. cbn [negb].
    destruct (String.eqb_spec (trim (draft_title (draft s))) "") as [T|_];
      [rewrite T in L; simpl in L; lia|].
    destruct (Nat.ltb_spec 80 (String.length (trim (draft_title (draft s)))));
      [reflexivity | lia]. }
  assert (H : handle confirm api EvSubmit s = (setTouched true s, [])).
  { simpl. unfold handleSubmit, canSave. rewrite E. reflexivity. }
  assert (Same : setTouched true s = s).
  { destruct s; simpl in *. subst. reflexivity. }
  unfold step. rewrite H. cbn [fst snd]. rewrite Same.
  rewrite syncDraft_unchanged by reflexivity. auto.
Qed.

(** C3, on the code.  A draft whose trimmed title has 81 characters, typed
    into a new note without leaving the title field: [canSave] holds, and
    submitting the form (or invoking save) calls the Adapter's create
    operation with that title, stores the created note, moves to view mode
    and surfaces no title error. *)
Theorem save_overlong_title_reaches_adapter :
  String.length (trim long_title) = 81
  /\ canSave (composing (serving []) long_title) = true
  /\ snd (handle (always true) (serving []) EvSubmit (composing (serving []) long_title))
     = [CallCreate long_title ""]
  /\ snd (handle (always true) (serving []) EvSave (composing (serving []) long_title))
     = [CallCreate long_title ""]
  /\ mode (composing (serving []) long_title) = Create
  /\ mode (step (always true) (serving []) EvSubmit (composing (serving []) long_title))
     = View
  /\ notes (step (always true) (serving []) EvSubmit (composing (serving []) long_title))
     = [plain_note "new" long_title ""]
  /\ titleError (step (always true) (serving []) EvSubmit
                   (composing (serving []) long_title)) = "".
Proof. repeat split; reflexivity. Qed.

(* ================================================================== *)
(** * Properties of the user interface *)

(** ** What the states between two events have in common *)

Lemma selectedNote_same a b :
  notes a = notes b -> selectedId a = selectedId b -> selectedNote a = selectedNote b.
Proof. unfold selectedNote. intros -> ->. reflexivity. Qed.

Lemma syncDraft_selectedNote prev cur :
  selectedNote (syncDraft prev cur) = selectedNote cur.
Proof.
  destruct (syncDraft_frame prev cur) as (N & S & _). apply selectedNote_same; assumption.
Qed.

Lemma syncDraft_isBusy prev cur : isBusy (syncDraft prev cur) = isBusy cur.
Proof.
  unfold syncDraft. destruct (deps_changed prev cur); [|reflexivity].
  destruct (mode cur), (selectedNote cur); reflexivity.
Qed.

Lemma syncDraft_draft prev cur n :
  mode cur = View -> selectedNote cur = Some n ->
  draft (syncDraft prev cur)
  = if deps_changed prev cur then draft_of n else draft cur.
Proof.
  intros M S. unfold syncDraft. destruct (deps_changed prev cur); [|reflexivity].
  rewrite M, S. reflexivity.
Qed.

Lemma consistent_settled s cur : settled s cur -> consistent (syncDraft s cur).
Proof.
  intros (B & L & D & E).
  destruct (syncDraft_frame s cur) as (N & S & M).
  unfold consistent.
  rewrite syncDraft_isBusy, syncDraft_selectedNote, N, S, M.
  split; [exact B|]. split; [exact L|]. split; [|exact E].
  intros V n Sel. rewrite (syncDraft_draft s cur n V Sel).
  destruct (deps_changed s cur); [reflexivity|].
  destruct (D V n Sel); [assumption | discriminate].
Qed.












Lemma consistent_loaded confirm api : consistent (step confirm api EvLoad initial).
Proof.
  unfold step. apply consistent_settled. simpl. unfold load.
  destruct (api_listNotes api) as [items|e]; simpl.
  - destruct (sortNotes items) as [|first rest] eqn:Srt; unfold settled; simpl.
    + repeat split; discriminate.
    + split; [reflexivity|]. split; [intros i [= <-]; now left|].
      split; [|discriminate]. intros _ n Sel. right.
      unfold deps_changed. rewrite Sel. reflexivity.
  - unfold settled. simpl. repeat split; discriminate.
Qed.




(** ** The invariants, one by one *)













(** ** The initial load *)


(** X22.  A load whose component was unmounted before it settled applies
    nothing of its result: whatever the Adapter answers, the collection,
    the selection, the mode and the draft stay as they were. *)
Theorem load_unmounted api s :
  notes (fst (load false api s)) = notes s
  /\ selectedId (fst (load false api s)) = selectedId s
  /\ mode (fst (load false api s)) = mode s
  /\ draft (fst (load false api s)) = draft s
  /\ error (fst (load false api s)) = "".
Proof. unfold load. destruct (api_listNotes api); repeat split. Qed.

Lemma hd_In_ids (l : list Note) first rest :
  l = first :: rest -> In first l.
Proof. intros ->. now left. Qed.

(** X23.  When the initial load through the client succeeds, the stored
    collection is the sorted list of the notes the server listed with a
    non-empty id; if there is one, the first of them is selected and the
    draft shows it, and otherwise nothing is selected. *)
Theorem load_through_client confirm API_BASE net ns :
  listNotes API_BASE (net CallList) = Returned ns ->
  notes (step confirm (notesApi API_BASE net) EvLoad initial) = sortNotes ns
  /\ match sortNotes ns with
     | first :: _ =>
         selectedNote (step confirm (notesApi API_BASE net) EvLoad initial)
         = Some first
         /\ draft (step confirm (notesApi API_BASE net) EvLoad initial)
            = draft_of first
     | [] => selectedId (step confirm (notesApi API_BASE net) EvLoad initial) = None
     end.
Proof.
  intros A.
  pose proof (listNotes_ids _ _ _ A) as Ids.
  pose proof (consistent_loaded confirm (notesApi API_BASE net)) as (_ & _ & D & _).
  assert (F : notes (step confirm (notesApi API_BASE net) EvLoad initial) = sortNotes ns
              /\ selectedId (step confirm (notesApi API_BASE net) EvLoad initial)
                 = option_map id (hd_error (sortNotes ns))
              /\ mode (step confirm (notesApi API_BASE net) EvLoad initial) = View).
  { unfold step. cbn [handle].
    destruct (syncDraft_frame initial (fst (load true (notesApi API_BASE net) initial)))
      as (-> & -> & ->).
    unfold load. cbn [api_listNotes notesApi]. rewrite A.
    cbn [negb fst]. destruct (sortNotes ns); repeat split. }
  destruct F as (N & Sl & M). split; [exact N|].
  destruct (sortNotes ns) as [|first rest] eqn:Srt; [exact Sl|].
  assert (Sel : selectedNote (step confirm (notesApi API_BASE net) EvLoad initial)
                = Some first).
  { unfold selectedNote. rewrite Sl, N. simpl.
    assert (Ne : id first <> "").
    { rewrite Forall_forall in Ids. apply Ids.
      apply (Permutation_in first (Permutation_sym (sortNotes_perm ns))).
      rewrite Srt. now left. }
    destruct (String.eqb_spec (id first) ""); [contradiction|].
    rewrite String.eqb_refl. reflexivity. }
  split; [exact Sel | apply (D M first Sel)].
Qed.

(** ** The collection *)

(** X24.  In every reachable state the collection is stored as
    [sortNotes] arranges it: most recent first, so that sorting it again
    changes nothing. *)
Theorem reachable_sorted s :
  reachable s -> most_recent_first (notes s) /\ sortNotes (notes s) = notes s.
Proof.
  intros R. destruct (well_formed_reachable s R) as [Srt _].
  split; [exact Srt | apply sortNotes_fixed, Srt].
Qed.

(** X25.  [sortNotes] is idempotent and keeps the number of notes. *)
Theorem sortNotes_idempotent l :
  sortNotes (sortNotes l) = sortNotes l
  /\ length (sortNotes l) = length l.
Proof.
  split; [apply sortNotes_fixed, sortNotes_sorted|].
  apply Permutation_length, Permutation_sym, sortNotes_perm.
Qed.

(** X26.  A successful save in edit mode replaces notes by id: the ids
    of the collection are the same as before, as many times each, the
    selection stays and the mode returns to view. *)
Theorem save_edit_keeps_ids confirm api s sel updated :
  mode s = Edit -> selectedNote s = Some sel ->
  (trim (draft_title (draft s)) =? "") = false ->
  api_updateNote api (id sel) (trim (draft_title (draft s))) (draft_content (draft s))
  = Returned updated ->
  Permutation (map id (notes (step confirm api EvSave s))) (map id (notes s))
  /\ selectedId (step confirm api EvSave s) = selectedId s
  /\ mode (step confirm api EvSave s) = View.
Proof.
  intros M Sel T A. unfold step. cbn [handle].
  destruct (syncDraft_frame s (fst (handleSave api s))) as (-> & -> & ->).
  assert (H : fst (handleSave api s)
              = setIsBusy false (showStatus "Updated." (setMode View
                  (setNotes (sortNotes (map (fun n => if id n =? id updated
                                                      then updated else n) (notes s)))
                     (setIsBusy true (setTouched true (setError "" s))))))).
  { unfold handleSave. rewrite T, M, Sel, A. reflexivity. }
  rewrite H. clear H. split; [|split; reflexivity].
  cbn [notes setIsBusy showStatus setStatus setMode setNotes].
  apply Permutation_trans
    with (map id (map (fun n => if id n =? id updated then updated else n) (notes s))).
  - apply Permutation_map, Permutation_sym, sortNotes_perm.
  - rewrite ids_of_replaced. apply Permutation_refl.
Qed.

(** X27.  A successful save in create mode adds the created note to the
    collection, selects its id and returns to view mode.  When that id is
    the empty string (the server's answer held no id), the note is stored
    all the same but no note is selected, and the draft keeps what was
    typed. *)
Theorem save_create_stores_note confirm api s created :
  mode s = Create ->
  (trim (draft_title (draft s)) =? "") = false ->
  api_createNote api (trim (draft_title (draft s))) (draft_content (draft s))
  = Returned created ->
  Permutation (notes (step confirm api EvSave s)) (created :: notes s)
  /\ selectedId (step confirm api EvSave s) = Some (id created)
  /\ mode (step confirm api EvSave s) = View
  /\ (id created = "" ->
      selectedNote (step confirm api EvSave s) = None
      /\ draft (step confirm api EvSave s) = draft s).
Proof.
  intros M T A. unfold step. cbn [handle].
  assert (H : fst (handleSave api s)
              = setIsBusy false (showStatus "Saved." (setMode View
                  (setSelectedId (Some (id created))
                     (setNotes (sortNotes (created :: notes s))
                        (setIsBusy true (setTouched true (setError "" s)))))))).
  { unfold handleSave. rewrite T, M, A. reflexivity. }
  rewrite H. clear H.
  match goal with |- context [syncDraft s ?c] => set (cur := c) end.
  destruct (syncDraft_frame s cur) as (N & Sl & Md). rewrite N, Sl, Md.
  split; [apply Permutation_sym, (sortNotes_perm (created :: notes s))|].
  split; [reflexivity|]. split; [reflexivity|].
  intros Em.
  assert (Sel : selectedNote cur = None).
  { unfold selectedNote. subst cur. cbn [selectedId setIsBusy showStatus setStatus
      setMode setSelectedId]. rewrite Em. reflexivity. }
  rewrite syncDraft_selectedNote. split; [exact Sel|].
  rewrite (syncDraft_no_selection s cur Sel). reflexivity.
Qed.

(** ** The Save button *)

(** X28.  The Save button responds exactly when no request is in
    flight, the trimmed title is not empty and, once the title field has
    been touched, the trimmed title has at most 80 characters. *)
Theorem canSave_iff s :
  canSave s = true
  <-> isBusy s = false
      /\ trim (draft_title (draft s)) <> ""
      /\ (touched s = true ->
          (String.length (trim (draft_title (draft s))) <= 80)%nat).
Proof.
  unfold canSave, titleError.
  destruct (isBusy s), (touched s);
    destruct (String.eqb_spec (trim (draft_title (draft s))) "") as [E|E];
    try destruct (Nat.ltb_spec 80 (String.length (trim (draft_title (draft s)))))
      as [L|L];
    cbn [negb andb String.eqb Ascii.eqb Bool.eqb];
    (split;
     [ intros H; try discriminate H; repeat split; try assumption; intros; lia
     | intros (B & Ne & Le); try discriminate B; try (now elim Ne);
       try (specialize (Le eq_refl); lia); reflexivity ]).
Qed.

(** ** A client without a base URL *)

(** X29.  When neither the primary nor the fallback base setting holds a
    non-empty value, every operation of the client fails with the
    configuration error whatever the network would answer, and the initial
    load leaves an empty collection and displays that error. *)
Theorem unconfigured_client primary fallback confirm net call :
  (primary = None \/ primary = Some "") ->
  (fallback = None \/ fallback = Some "") ->
  failure_of (notesApi (API_BASE_of primary fallback) net) call
  = Some (ErrorObj not_configured)
  /\ step confirm (notesApi (API_BASE_of primary fallback) net) EvLoad initial
     = setError not_configured initial.
Proof.
  intros P F. rewrite (API_BASE_of_unset primary fallback P F). split.
  - destruct call; reflexivity.
  - reflexivity.
Qed.

End Orchestrator.

(* ================================================================== *)
(** * The properties at concrete inputs *)

(** C1, the claim fails as stated: on [{id:"1", title:"A", content:"x",
    updatedAt:""}] the candidate [updatedAt] is present, yet the note that
    [toUiNote] returns has no [updatedAt], where the stated rule includes
    it. *)
Lemma toUiNote_empty_timestamp_left_out :
  first_present raw_empty_updatedAt updatedAt_keys = Some (JStr "")
  /\ toUiNote raw_empty_updatedAt = Returned note_1_A_x
  /\ toUiNote_stated raw_empty_updatedAt
     = Returned {| id := "1"; title := "A"; content := "x";
                   updatedAt := Some ""; createdAt := None |}.
Proof. repeat split; reflexivity. Qed.

(** C2, the claim fails as stated: a note with neither timestamp is placed
    first, before a note dated 1969-12-31T23:59:59.000Z, whose timestamp is
    the later one when the absent one counts as the oldest possible. *)
Lemma sortNotes_undated_before_older :
  sortNotes no_other_formats [note_1969; note_undated] = [note_undated; note_1969]
  /\ later_stated no_other_formats note_1969 note_undated = true
  /\ toTs no_other_formats note_1969 = (-1000)%Z
  /\ toTs no_other_formats note_undated = 0%Z.
Proof. repeat split; reflexivity. Qed.

(** C4, the claim fails as stated: in [{data:null, items:[...]}] the first
    of [data], [items], [notes] that wraps an array is [items], and its one
    element normalizes to a note with id "1", yet [listNotes] returns the
    empty sequence. *)
Lemma listNotes_skips_items_beside_data :
  first_array_under items_beside_null_data ["data"; "items"; "notes"]
  = Some [raw_1_A_x]
  /\ normalized [raw_1_A_x] = Returned [note_1_A_x]
  /\ listNotes API_BASE_example (Returned items_beside_null_data_response)
     = Returned [].
Proof. repeat split; reflexivity. Qed.

(** C4 at the payload [{data:{items:[{_id:"1",name:"A",body:"x"}]}}]. *)
Lemma listNotes_successful_response_witness :
  listNotes API_BASE_example (Returned data_items_response)
  = Returned [note_1_A_x].
Proof.
  exact (eq_trans
    (listNotes_successful_response API_BASE_example
       data_items_response data_items_payload eq_refl eq_refl eq_refl)
    eq_refl).
Defined.

(** C8, the claim fails as stated: a 400 labelled as JSON whose body is the
    JSON string "Title is too long" has neither a [message] nor an [error]
    field, so the stated order ends at the generic message, yet the error
    thrown carries the string itself. *)
Lemma request_json_string_is_the_message :
  ok json_string_body = false
  /\ is_json_response json_string_body = true
  /\ parseJsonOrText json_string_body = Returned (JStr "Title is too long")
  /\ request API_BASE_example (Returned json_string_body)
     = Threw (ErrorObj "Title is too long")
  /\ throw_new_Error (A := JsValue)
       (message_stated json_string_body (JStr "Title is too long"))
     = Threw (ErrorObj "Request failed (400)").
Proof. repeat split; reflexivity. Qed.

(** C8 at a 422 with the JSON body [{"error":"title too long"}]. *)
Lemma request_failure_message_witness :
  request API_BASE_example (Returned title_too_long)
  = Threw (ErrorObj "title too long").
Proof.
  exact (proj1 (proj2 (proj2 (request_failure_message API_BASE_example title_too_long
                                (JObj [("error", JStr "title too long")])
                                eq_refl eq_refl eq_refl)))
           "title too long" eq_refl).
Defined.

(** C9, the claim fails as stated: [{id:"1", updatedAt:[]}] normalizes to a
    note whose [updatedAt] is the empty string (the array is truthy and
    prints as ""), and normalizing that note drops [updatedAt]. *)
Lemma toUiNote_drops_empty_timestamp :
  toUiNote raw_array_updatedAt
  = Returned {| id := "1"; title := ""; content := "";
                updatedAt := Some ""; createdAt := None |}
  /\ toUiNote (note_value {| id := "1"; title := ""; content := "";
                             updatedAt := Some ""; createdAt := None |})
     = Returned {| id := "1"; title := ""; content := "";
                   updatedAt := None; createdAt := None |}.
Proof. split; reflexivity. Qed.

(** C9 at [{id:7, name:"  Plan ", text:"x", modified_at:...}]. *)
Lemma toUiNote_idempotent_witness :
  toUiNote raw_plan
  = Returned {| id := "7"; title := "Plan"; content := "x";
                updatedAt := Some "2024-05-01T09:00:00.000Z"; createdAt := None |}
  /\ toUiNote (note_value {| id := "7"; title := "Plan"; content := "x";
                             updatedAt := Some "2024-05-01T09:00:00.000Z";
                             createdAt := None |})
     = Returned {| id := "7"; title := "Plan"; content := "x";
                   updatedAt := Some "2024-05-01T09:00:00.000Z"; createdAt := None |}.
Proof.
  split; [reflexivity|].
  apply (proj1 (proj2 (toUiNote_idempotent_but_empty_timestamps raw_plan _ eq_refl)));
    discriminate.
Defined.





(** C10 at a declined deletion of the selected note. *)
Lemma handleDelete_declined_witness :
  snd (handle no_other_formats (always false) (serving []) (EvDelete "a")
         (loaded_two no_other_formats)) = []
  /\ step no_other_formats (always false) (serving []) (EvDelete "a")
       (loaded_two no_other_formats)
     = setError "" (loaded_two no_other_formats).
Proof.
  exact (handleDelete_declined no_other_formats (always false) (serving [])
           "a" (loaded_two no_other_formats) eq_refl).
Defined.

(** X1 at a title of two spaces. *)
Lemma handleSave_blank_title_witness :
  snd (handle no_other_formats (always true) (serving []) EvSave
         (composing no_other_formats (serving []) "  ")) = []
  /\ mode (step no_other_formats (always true) (serving []) EvSave
             (composing no_other_formats (serving []) "  ")) = Create
  /\ titleError (step no_other_formats (always true) (serving []) EvSave
                   (composing no_other_formats (serving []) "  "))
     = "Title is required.".
Proof.
  destruct (handleSave_blank_title no_other_formats (always true) (serving [])
              (composing no_other_formats (serving []) "  ") eq_refl)
    as (C & S & T).
  split; [exact C|]. split; [rewrite S; reflexivity | exact T].
Defined.

(** X2 at the 81-character title, after the field was left. *)
Lemma handleSubmit_touched_overlong_witness :
  snd (handle no_other_formats (always true) (serving []) EvSubmit
         (step no_other_formats (always true) (serving []) EvTitleBlur
            (composing no_other_formats (serving []) long_title))) = []
  /\ titleError (step no_other_formats (always true) (serving []) EvTitleBlur
                   (composing no_other_formats (serving []) long_title))
     = "Title must be 80 characters or less.".
Proof.
  destruct (handleSubmit_touched_overlong no_other_formats (always true) (serving [])
              (step no_other_formats (always true) (serving []) EvTitleBlur
                 (composing no_other_formats (serving []) long_title))
              eq_refl (proj1 (Nat.ltb_lt 80 81) eq_refl))
    as (C & _ & T).
  split; assumption.
Defined.

(** X3 after the initial load of two notes with distinct ids. *)
Lemma reachable_unique_one_selected_witness :
  NoDup (map id (notes (loaded_two no_other_formats)))
  /\ (length (filter (isSelected (loaded_two no_other_formats))
                (notes (loaded_two no_other_formats))) <= 1)%nat.
Proof.
  apply (reachable_unique_one_selected no_other_formats).
  apply (reachable_unique_step no_other_formats initial (always true)
           (serving [note_2023; note_2024]) EvLoad
           (reachable_unique_initial no_other_formats)).
  split.
  - intros items [= <-]. simpl. repeat constructor; simpl; intuition discriminate.
  - intros t c created _ [].
Defined.

(* ------------------------------------------------------------------ *)
(** ** The client at concrete responses *)

(** X4 at the payload [{data:{items:[{_id:"1",name:"A",body:"x"}]}}]. *)
Lemma listNotes_addressable_witness :
  listNotes API_BASE_example (Returned data_items_response) = Returned [note_1_A_x]
  /\ Forall (fun n => id n <> "") [note_1_A_x].
Proof.
  split; [reflexivity|].
  exact (listNotes_addressable API_BASE_example (Returned data_items_response)
           [note_1_A_x] eq_refl).
Defined.

(** X5 at a create that the server refuses with a 422. *)
Lemma operations_fail_as_request_witness :
  failure_of (notesApi API_BASE_example (answering title_too_long))
    (CallCreate long_title "")
  = Some (ErrorObj "title too long").
Proof.
  exact (operations_fail_as_request API_BASE_example (answering title_too_long)
           (CallCreate long_title "") (ErrorObj "title too long") eq_refl).
Defined.

(** X8 at two deletions that send the same request. *)
Lemma fetch_call_injective_witness :
  call_url (fetch_call API_BASE_example (CallDelete "a/b"))
  = "https://api.example.com/notes/a%2Fb"
  /\ CallDelete ("a" ++ "/b") = CallDelete "a/b".
Proof.
  split; [reflexivity|].
  exact (fetch_call_injective API_BASE_example (CallDelete ("a" ++ "/b"))
           (CallDelete "a/b") eq_refl).
Defined.

(** X10 at a 201 whose body is the note with id "1". *)
Lemma createNote_returns_canonical_note_witness :
  createNote API_BASE_example (Returned created_response) = Returned note_1_A_x
  /\ updateNote API_BASE_example (Returned created_response) = Returned note_1_A_x.
Proof.
  apply (createNote_returns_canonical_note API_BASE_example created_response
           (note_value note_1_A_x) note_1_A_x);
    [reflexivity | reflexivity | reflexivity | left; reflexivity | reflexivity
    | discriminate | discriminate].
Defined.

(** X11 at a 200 whose body is [null]. *)
Lemma createNote_without_object_witness :
  createNote API_BASE_example (Returned null_response) = Returned empty_note
  /\ updateNote API_BASE_example (Returned null_response) = Returned empty_note.
Proof.
  exact (createNote_without_object API_BASE_example null_response JNull
           eq_refl eq_refl eq_refl eq_refl).
Defined.

(** X12 at a 204 without a body. *)
Lemma deleteNote_success_status_witness :
  deleteNote API_BASE_example (Returned no_content_response) = Returned tt.
Proof.
  exact (eq_trans
    (deleteNote_success_status API_BASE_example no_content_response eq_refl eq_refl)
    eq_refl).
Defined.

(** X13 at [{id:"1", title:"A", content:"x"}]. *)
Lemma toUiNote_flat_object_witness :
  exists n, toUiNote raw_1_A_x = Returned n.
Proof.
  apply (toUiNote_flat_object
           [("id", JStr "1"); ("title", JStr "A"); ("content", JStr "x")]).
  repeat constructor.
Defined.

(* ------------------------------------------------------------------ *)
(** ** The user interface at concrete states *)











(** X23 at the payload [{data:{items:[{_id:"1",name:"A",body:"x"}]}}]. *)
Lemma load_through_client_witness :
  notes (step no_other_formats (always true)
           (notesApi API_BASE_example (answering data_items_response)) EvLoad initial)
  = [note_1_A_x]
  /\ selectedNote (step no_other_formats (always true)
                     (notesApi API_BASE_example (answering data_items_response))
                     EvLoad initial)
     = Some note_1_A_x
     /\ draft (step no_other_formats (always true)
                 (notesApi API_BASE_example (answering data_items_response))
                 EvLoad initial)
        = draft_of note_1_A_x.
Proof.
  exact (load_through_client no_other_formats (always true) API_BASE_example
           (answering data_items_response) [note_1_A_x] eq_refl).
Defined.

(** X24 at the state after the load of two notes. *)
Lemma reachable_sorted_witness :
  most_recent_first no_other_formats (notes (loaded_two no_other_formats))
  /\ sortNotes no_other_formats (notes (loaded_two no_other_formats))
     = notes (loaded_two no_other_formats).
Proof.
  apply (reachable_sorted no_other_formats (loaded_two no_other_formats)).
  apply reachable_run, reachable_initial.
Defined.

(** X26 at the note with id "a" saved under the title "Food". *)
Lemma save_edit_keeps_ids_witness :
  Permutation
    (map id (notes (step no_other_formats (always true)
                      (serving [note_2023; note_2024]) EvSave
                      (retitling no_other_formats))))
    (map id (notes (retitling no_other_formats)))
  /\ selectedId (step no_other_formats (always true)
                   (serving [note_2023; note_2024]) EvSave
                   (retitling no_other_formats))
     = selectedId (retitling no_other_formats)
  /\ mode (step no_other_formats (always true)
             (serving [note_2023; note_2024]) EvSave
             (retitling no_other_formats)) = View.
Proof.
  exact (save_edit_keeps_ids no_other_formats (always true)
           (serving [note_2023; note_2024]) (retitling no_other_formats) note_2024
           (plain_note "a" "Food" "milk") eq_refl eq_refl eq_refl eq_refl).
Defined.

(** X27 at a create that the server answers with [null]: the note without
    an id is stored, nothing is selected and the draft keeps "Shopping". *)
Lemma save_create_stores_note_witness :
  Permutation
    (notes (step no_other_formats (always true)
              (notesApi API_BASE_example answering_null) EvSave
              (composing no_other_formats
                 (notesApi API_BASE_example answering_null) "Shopping")))
    [empty_note; note_1_A_x]
  /\ selectedNote (step no_other_formats (always true)
                     (notesApi API_BASE_example answering_null) EvSave
                     (composing no_other_formats
                        (notesApi API_BASE_example answering_null) "Shopping"))
     = None
  /\ draft_title (draft (step no_other_formats (always true)
                           (notesApi API_BASE_example answering_null) EvSave
                           (composing no_other_formats
                              (notesApi API_BASE_example answering_null) "Shopping")))
     = "Shopping".
Proof.
  destruct (save_create_stores_note no_other_formats (always true)
              (notesApi API_BASE_example answering_null)
              (composing no_other_formats
                 (notesApi API_BASE_example answering_null) "Shopping")
              empty_note eq_refl eq_refl eq_refl) as (P & _ & _ & E).
  destruct (E eq_refl) as (Sel & D).
  split; [exact P|]. split; [exact Sel|]. rewrite D. reflexivity.
Defined.

(** X29 at a primary setting that is absent and a fallback that is
    empty. *)
Lemma unconfigured_client_witness :
  failure_of (notesApi (API_BASE_of None (Some "")) (answering data_items_response))
    CallList
  = Some (ErrorObj not_configured)
  /\ step no_other_formats (always true)
       (notesApi (API_BASE_of None (Some "")) (answering data_items_response))
       EvLoad initial
     = setError not_configured initial.
Proof.
  exact (unconfigured_client no_other_formats None (Some "") (always true)
           (answering data_items_response) CallList
           (or_introl eq_refl) (or_intror eq_refl)).
Defined.
